(** * song_downloader.py: a shallow embedding and its properties

    The module downloads a track with two external tools (spotdl for
    service URLs, yt-dlp for searches).  Everything the program does to
    the outside world (spawning and killing a process, reading its output,
    reading the clock, running a command, fetching a page) is modelled by a
    [World] that tells what each of these calls answers; the functions of
    the module are then ordinary functions of the world that return the
    Python value together with the list of effects, in order.

    Strings are [String.string]; case folding and white space are those of
    ASCII.  The clock is read in whole seconds.  The record that the search
    backend prints is taken at the types of its contract: texts, and whole
    numbers for the duration and the dimensions of a thumbnail, each key
    being present or absent. *)

From Stdlib Require Import ZArith List String Ascii Bool Lia.
Import ListNotations.
Local Open Scope string_scope.
Local Open Scope Z_scope.

(** ** Python's string operations *)

Module PyStr.

(** The double quote, the backslash and the line feed, which the string
    notation cannot hold. *)
Definition dquote : ascii := ascii_of_nat 34.
Definition backslash : ascii := ascii_of_nat 92.
Definition newline : ascii := ascii_of_nat 10.
Definition dq : string := String dquote EmptyString.
Definition nl : string := String newline EmptyString.

(** [bool(s)]: a string is true when it is not empty. *)
Definition truthy (s : string) : bool :=
  match s with
  | EmptyString => false
  | String _ _ => true
  end.

(** [c.isspace()] on ASCII: tab, line feed, vertical tab, form feed,
    carriage return, the four separators 28..31 and the space. *)
Definition is_space (c : ascii) : bool :=
  let n := nat_of_ascii c in
  ((9 <=? n) && (n <=? 13) || (28 <=? n) && (n <=? 32))%nat.

Fixpoint lstrip (s : string) : string :=
  match s with
  | EmptyString => EmptyString
  | String c s' => if is_space c then lstrip s' else s
  end.

Fixpoint rstrip (s : string) : string :=
  match s with
  | EmptyString => EmptyString
  | String c s' =>
      match rstrip s' with
      | EmptyString => if is_space c then EmptyString else String c EmptyString
      | r => String c r
      end
  end.

(** [s.strip()] *)
Definition strip (s : string) : string := rstrip (lstrip s).

Definition lower_char (c : ascii) : ascii :=
  let n := nat_of_ascii c in
  if ((65 <=? n) && (n <=? 90))%nat then ascii_of_nat (n + 32) else c.

(** [s.lower()] *)
Fixpoint lower (s : string) : string :=
  match s with
  | EmptyString => EmptyString
  | String c s' => String (lower_char c) (lower s')
  end.

(** [sub in s] *)
Fixpoint contains (sub s : string) : bool :=
  String.prefix sub s
  || match s with
     | EmptyString => false
     | String _ s' => contains sub s'
     end.

(** [s.replace(old, new)] for a non-empty [old]: the occurrences are taken
    from the left and do not overlap.  [skip] counts the characters of an
    occurrence that are still to be dropped. *)
Fixpoint replace_from (old new : string) (skip : nat) (s : string) : string :=
  match s with
  | EmptyString => EmptyString
  | String c s' =>
      match skip with
      | S k => replace_from old new k s'
      | O =>
          if String.prefix old s
          then new ++ replace_from old new (Nat.pred (String.length old)) s'
          else String c (replace_from old new O s')
      end
  end.

Definition replace (old new s : string) : string := replace_from old new O s.

(** [s[n:]] *)
Fixpoint drop (n : nat) (s : string) : string :=
  match n, s with
  | O, _ => s
  | S _, EmptyString => EmptyString
  | S k, String _ s' => drop k s'
  end.

(** The longest prefix of [s] without the character [stop], and what
    follows it. *)
Fixpoint span_not (stop : ascii) (s : string) : string * string :=
  match s with
  | EmptyString => (EmptyString, EmptyString)
  | String c s' =>
      if Ascii.eqb c stop then (EmptyString, s)
      else let (run, rest) := span_not stop s' in (String c run, rest)
  end.

(** [re.search(pre + '([^stop]+)' + post, s)], group 1, for a [post] that
    starts with [stop].  The class is greedy, and a shorter run would have
    to be followed by [stop], which the run does not contain: at a given
    position the pattern matches exactly when the longest run is not empty
    and [post] follows it.  The leftmost position that matches wins. *)
Fixpoint search_group (pre : string) (stop : ascii) (post : string) (s : string)
  : option string :=
  let here :=
    if String.prefix pre s then
      let (run, rest) := span_not stop (drop (String.length pre) s) in
      if truthy run && String.prefix post rest then Some run else None
    else None in
  match here with
  | Some g => Some g
  | None =>
      match s with
      | EmptyString => None
      | String _ s' => search_group pre stop post s'
      end
  end.

(** [os.path.join(a, b)] of posixpath, for two components. *)
Fixpoint ends_with (c : ascii) (a : string) : bool :=
  match a with
  | EmptyString => false
  | String x EmptyString => Ascii.eqb x c
  | String _ a' => ends_with c a'
  end.

Definition path_join (a b : string) : string :=
  if String.prefix "/" b then b
  else if negb (truthy a) || ends_with "/"%char a then a ++ b
  else a ++ "/" ++ b.

End PyStr.

Import PyStr.
Local Open Scope list_scope.

(** ** The data of the module *)

(** One entry of the [thumbnails] list of the search backend's record.  A
    field is [None] when the key is absent. *)
Record Thumbnail := {
  th_url : option string;
  th_width : option Z;
  th_height : option Z
}.

(** The record parsed from the output of the metadata-only call, with the
    keys the module reads. *)
Record Info := {
  i_title : option string;
  i_artist : option string;
  i_uploader : option string;
  i_album : option string;
  i_duration : option Z;
  i_webpage_url : option string;
  i_thumbnail : option string;
  i_thumbnails : list Thumbnail
}.

(** The [metadata] dictionary of [download_song_with_metadata].  The keys
    [cover_path] and [file_path] are added late, hence optional. *)
Record Metadata := {
  title : string;
  artist : string;
  album : string;
  duration : Z;
  youtube_url : string;
  thumbnail_url : string;
  thumbnails : list Thumbnail;
  cover_path : option string;
  file_path : option string
}.

(** What a function of the module returns. *)
Inductive PyValue :=
| PyBool (b : bool)
| PyNone
| PyDict (m : Metadata).

(** [d.get(k, default)] on an optional field. *)
Definition get {A} (field : option A) (default : A) : A :=
  match field with
  | Some v => v
  | None => default
  end.

(** [info.get("artist") or info.get("uploader", "Unknown")] *)
Definition artist_of (info : Info) : string :=
  match i_artist info with
  | Some a => if truthy a then a else get (i_uploader info) "Unknown"
  | None => get (i_uploader info) "Unknown"
  end.

(** *** Thumbnail selection (lines 293-296) *)

(** [lambda x: x.get("height", 0) * x.get("width", 0)] *)
Definition area (x : Thumbnail) : Z := get (th_height x) 0 * get (th_width x) 0.

(** The loop of Python's [max(iterable, key=...)]: the running maximum is
    replaced only by an item whose key is strictly greater. *)
Fixpoint max_from {A} (key : A -> Z) (best : A) (l : list A) : A :=
  match l with
  | [] => best
  | x :: l' => if key x >? key best then max_from key x l' else max_from key best l'
  end.

(** [max(l, key=key)]; [None] stands for the [ValueError] on an empty
    sequence. *)
Definition py_max {A} (key : A -> Z) (l : list A) : option A :=
  match l with
  | [] => None
  | x :: l' => Some (max_from key x l')
  end.

(** The value of [metadata["thumbnail_url"]] after lines 288-296. *)
Definition select_thumbnail_url (info : Info) : string :=
  let default := get (i_thumbnail info) EmptyString in
  match py_max area (i_thumbnails info) with
  | Some best => get (th_url best) default
  | None => default
  end.

(** Lines 282-296. *)
Definition build_metadata (info : Info) : Metadata :=
  {| title := get (i_title info) "Unknown";
     artist := artist_of info;
     album := get (i_album info) EmptyString;
     duration := get (i_duration info) 0;
     youtube_url := get (i_webpage_url info) EmptyString;
     thumbnail_url := select_thumbnail_url info;
     thumbnails := i_thumbnails info;
     cover_path := None;
     file_path := None |}.

(** *** File names (lines 303-305) *)

(** The character class of the pattern on line 303. *)
Definition illegal_chars : list ascii :=
  ["<"; ">"; ":"; dquote; "/"; backslash; "|"; "?"; "*"]%char.

Definition is_illegal (c : ascii) : bool :=
  existsb (Ascii.eqb c) illegal_chars.

(** [re.sub] of line 303: each character of the class becomes an underscore,
    the others are kept. *)
Fixpoint sanitize (s : string) : string :=
  match s with
  | EmptyString => EmptyString
  | String c s' => String (if is_illegal c then "_"%char else c) (sanitize s')
  end.

Definition safe_filename (m : Metadata) : string :=
  sanitize (artist m ++ " - " ++ title m)%string.

(** ** The outside world *)

(** What [subprocess.run] gives for a command.  The call has no timeout:
    it returns when the command exits, if it does. *)
Inductive RunResult :=
| RunDone (returncode : Z) (stdout stderr : string) (written : list string)
| RunRaises
| RunHangs.

(** What [json.loads] makes of a text. *)
Inductive Parsed :=
| ParsedDict (info : Info)
| ParsedOther
| JSONDecodeError.

(** What [urllib.request.urlretrieve] does; it has no timeout either. *)
Inductive Retrieved := Saved | RetrieveRaises | RetrieveHangs.

(** What [process.stdout.readline()] does: it gives a text (empty at the
    end of the stream), raises, or never comes back. *)
Inductive ReadResult :=
| RdText (s : string)
| RdRaises
| RdBlocks.

(** One turn of the supervision loop as the world serves it: the clock at
    the check on line 129, the answer of the read on line 135 and, would
    line 136 ask, the answer of [process.poll()]. *)
Record Tick := {
  now : Z;
  rd : ReadResult;
  pl : option Z
}.

Record World := {
  w_executable : string;                       (* sys.executable *)
  w_start : Z;                                 (* the clock on line 100 *)
  w_spawn_ok : bool;                           (* Popen does not raise *)
  w_ticks : list Tick;
  w_exited_at_kill : option Z;                 (* the exit code, had the process
                                                  ended by itself when kill() is called *)
  w_kill_status : Z;                           (* the code of a process killed alive *)
  w_end : Z;                                   (* the clock on line 151 or 175 *)
  w_urlopen : string -> option string;         (* the page; None when the fetch raises *)
  w_run : list string -> RunResult;
  w_json_loads : string -> Parsed;
  w_urlretrieve : string -> string -> Retrieved
}.

(** The messages of the module, one constructor for each call of [log],
    [log_error] and [print]. *)
Inductive Msg :=
| MStart (url : string)
| MCommand (cmd : list string)
| MTimeout (elapsed : Z)
| MBackendLine (line : string)
| MRateLimited
| MFallingBack
| MNoTrackName
| MFinished (elapsed : Z) (returncode : Z)
| MDownloadedTo (dir : string)
| MExitCode (returncode : Z)
| MFullOutput (lines : list string)
| MException (elapsed : Z)
| MExceptionInfo
| MFetching
| MFound (title : string)
| MFoundFromTitle (title : string)
| MFetchFailed
| MSearching (query : string)
| MSearchFailed
| MFoundTrack (artist title : string)
| MCover (url : string)
| MUrl (url : string)
| MSavedCover (path : string)
| MCoverFailed
| MDownloaded (path : string)
| MParseFailed
| MError
| MErrorText (stderr : string)
| MGoodbye
| MBlank.

Inductive Level := INFO | ERROR.

(** The effects, in the order in which they happen. *)
Inductive Event :=
| EvMakedirs (dir : string)
| EvLog (level : Level) (m : Msg)
| EvTraceback
| EvPrint (m : Msg)
| EvSpawn (cmd : list string)
| EvReadline
| EvPoll
| EvKill
| EvReap
| EvRun (cmd : list string) (written : list string)
| EvUrlopen (url : string) (timeout : Z)
| EvUrlretrieve (url path : string) (saved : bool).

(** How a call ends: with a value, never, or beyond the ticks the world
    describes. *)
Inductive Outcome :=
| Returns (v : PyValue)
| NeverReturns
| Unobserved.

Record Ran := {
  ret : Outcome;
  effects : list Event
}.

(** The files an effect leaves on the disk. *)
Definition written_by (e : Event) : list string :=
  match e with
  | EvMakedirs d => [d]
  | EvRun _ files => files
  | EvUrlretrieve _ path true => [path]
  | _ => []
  end.

Definition disk_after (before : list string) (evs : list Event) : list string :=
  before ++ flat_map written_by evs.

Definition on_disk (path : string) (disk : list string) : bool :=
  existsb (String.eqb path) disk.

(** [log_error(msg)] and [log_error(msg, exc)] with VERBOSE = True. *)
Definition log_error (m : Msg) : list Event := [EvLog ERROR m].
Definition log_error_exc (m : Msg) : list Event :=
  [EvLog ERROR m; EvLog ERROR MExceptionInfo; EvTraceback].

(** ** The functions of the module *)

Section Program.

Variable w : World.

(** [get_yt_dlp_cmd()] *)
Definition get_yt_dlp_cmd : list string := [w_executable w; "-m"; "yt_dlp"].

Definition returns (v : PyValue) (evs : list Event) : Ran :=
  {| ret := Returns v; effects := evs |}.

Definition never_returns (evs : list Event) : Ran :=
  {| ret := NeverReturns; effects := evs |}.

(** *** [download_song] (lines 51-90) *)

Definition download_song_cmd (query output_dir : string) : list string :=
  get_yt_dlp_cmd ++
  [("ytsearch1:" ++ query)%string;
   "--extract-audio";
   "--audio-format"; "mp3";
   "--audio-quality"; "0";
   "--embed-thumbnail";
   "--embed-metadata";
   "--output"; path_join output_dir "%(artist)s - %(title)s.%(ext)s";
   "--no-playlist";
   "--progress"].

Definition download_song (query output_dir : string) : Ran :=
  let cmd := download_song_cmd query output_dir in
  let e0 := [EvMakedirs output_dir; EvPrint (MSearching query)] in
  match w_run w cmd with
  | RunDone returncode _ stderr files =>
      if returncode =? 0
      then returns (PyBool true) (e0 ++ [EvRun cmd files; EvPrint (MDownloadedTo output_dir)])
      else returns (PyBool false) (e0 ++ [EvRun cmd files; EvPrint (MErrorText stderr)])
  | RunRaises => returns (PyBool false) (e0 ++ [EvRun cmd []; EvPrint MError])
  | RunHangs => never_returns (e0 ++ [EvRun cmd []])
  end.

(** *** [extract_spotify_track_name] (lines 180-225) *)

Definition og_title_prefix : string :=
  ("<meta property=" ++ dq ++ "og:title" ++ dq ++ " content=" ++ dq)%string.

Definition twitter_title_prefix : string :=
  ("<meta name=" ++ dq ++ "twitter:title" ++ dq ++ " content=" ++ dq)%string.

(** The three probes of lines 202-220 on the text of the page. *)
Definition scrape_title (html : string) : option string * list Event :=
  match search_group og_title_prefix dquote dq html with
  | Some t => (Some t, [EvLog INFO (MFound t)])
  | None =>
      match search_group twitter_title_prefix dquote dq html with
      | Some t => (Some t, [EvLog INFO (MFound t)])
      | None =>
          match search_group "<title>" "<"%char "</title>" html with
          | Some t0 =>
              let t := strip (replace " | Spotify" EmptyString t0) in
              (Some t, [EvLog INFO (MFoundFromTitle t)])
          | None => (None, [])
          end
      end
  end.

Definition extract_spotify_track_name (spotify_url : string)
  : option string * list Event :=
  let e0 := [EvLog INFO MFetching; EvUrlopen spotify_url 10] in
  match w_urlopen w spotify_url with
  | Some html => let (t, e) := scrape_title html in (t, e0 ++ e)
  | None => (None, e0 ++ log_error_exc MFetchFailed)
  end.

(** *** [download_song_with_metadata] (lines 251-339) *)

Definition info_cmd (query : string) : list string :=
  get_yt_dlp_cmd ++ [("ytsearch1:" ++ query)%string; "--dump-json"; "--no-download"].

Definition download_cmd (webpage_url output_path : string) : list string :=
  get_yt_dlp_cmd ++
  [webpage_url;
   "--extract-audio";
   "--audio-format"; "mp3";
   "--audio-quality"; "0";
   "--embed-thumbnail";
   "--embed-metadata";
   "--output"; replace ".mp3" ".%(ext)s" output_path;
   "--no-playlist"].

Definition output_path_of (m : Metadata) (output_dir : string) : string :=
  path_join output_dir (safe_filename m ++ ".mp3")%string.

Definition cover_path_of (m : Metadata) (output_dir : string) : string :=
  path_join output_dir (safe_filename m ++ ".jpg")%string.

Definition set_cover_path (m : Metadata) (p : string) : Metadata :=
  {| title := title m; artist := artist m; album := album m;
     duration := duration m; youtube_url := youtube_url m;
     thumbnail_url := thumbnail_url m; thumbnails := thumbnails m;
     cover_path := Some p; file_path := file_path m |}.

Definition set_file_path (m : Metadata) (p : string) : Metadata :=
  {| title := title m; artist := artist m; album := album m;
     duration := duration m; youtube_url := youtube_url m;
     thumbnail_url := thumbnail_url m; thumbnails := thumbnails m;
     cover_path := cover_path m; file_path := Some p |}.

(** Lines 320-332: the cover, then the path of the audio file. *)
Definition finish_download (m : Metadata) (output_dir : string) : Ran :=
  let output_path := output_path_of m output_dir in
  let cover := cover_path_of m output_dir in
  let done (m' : Metadata) (e : list Event) :=
    returns (PyDict (set_file_path m' output_path))
            (e ++ [EvPrint (MDownloaded output_path)]) in
  if truthy (thumbnail_url m) then
    match w_urlretrieve w (thumbnail_url m) cover with
    | Saved =>
        done (set_cover_path m cover)
             [EvUrlretrieve (thumbnail_url m) cover true; EvPrint (MSavedCover cover)]
    | RetrieveRaises =>
        done m [EvUrlretrieve (thumbnail_url m) cover false; EvPrint MCoverFailed]
    | RetrieveHangs =>
        never_returns [EvUrlretrieve (thumbnail_url m) cover false]
    end
  else done m [].

(** Lines 282-332, once the record is parsed. *)
Definition download_resolved (info : Info) (output_dir : string) : Ran :=
  let m := build_metadata info in
  let e0 := [EvPrint (MFoundTrack (artist m) (title m));
             EvPrint (MCover (thumbnail_url m));
             EvPrint (MUrl (youtube_url m))] in
  match i_webpage_url info with
  | None => returns PyNone (e0 ++ [EvPrint MError])
  | Some url =>
      let cmd := download_cmd url (output_path_of m output_dir) in
      match w_run w cmd with
      | RunDone _ _ _ files =>
          let r := finish_download m output_dir in
          {| ret := ret r; effects := e0 ++ EvRun cmd files :: effects r |}
      | RunRaises => returns PyNone (e0 ++ [EvRun cmd []; EvPrint MError])
      | RunHangs => never_returns (e0 ++ [EvRun cmd []])
      end
  end.

Definition download_song_with_metadata (query output_dir : string) : Ran :=
  let e0 := [EvMakedirs output_dir; EvPrint (MSearching query)] in
  let cmd := info_cmd query in
  match w_run w cmd with
  | RunDone returncode stdout _ files =>
      let e1 := e0 ++ [EvRun cmd files] in
      if negb (returncode =? 0) then returns PyNone (e1 ++ [EvPrint MSearchFailed])
      else
        match w_json_loads w stdout with
        | ParsedDict info =>
            let r := download_resolved info output_dir in
            {| ret := ret r; effects := e1 ++ effects r |}
        | ParsedOther => returns PyNone (e1 ++ [EvPrint MError])
        | JSONDecodeError => returns PyNone (e1 ++ [EvPrint MParseFailed])
        end
  | RunRaises => returns PyNone (e0 ++ [EvRun cmd []; EvPrint MError])
  | RunHangs => never_returns (e0 ++ [EvRun cmd []])
  end.

(** *** [download_from_spotify_url] (lines 92-177) *)

(** The test of line 144. *)
Definition is_rate_limit (line : string) : bool :=
  contains "rate" (lower line) && contains "limit" (lower line).

(** How the loop of lines 127-148 is left. *)
Inductive LoopExit :=
| XTimeout (elapsed : Z)     (* line 133 *)
| XExited (returncode : Z)   (* line 137 *)
| XRateLimited               (* line 148 *)
| XRaised                    (* the read raised *)
| XBlocked                   (* the read never came back *)
| XUnobserved.               (* the ticks of the world are used up *)

Record Loop := {
  lp_exit : LoopExit;
  lp_lines : list string;    (* output_lines *)
  lp_evs : list Event
}.

Definition leave (x : LoopExit) (evs : list Event) : Loop :=
  {| lp_exit := x; lp_lines := []; lp_evs := evs |}.

(** The loop of lines 127-148, one tick for each turn. *)
Fixpoint supervise (timeout : Z) (ticks : list Tick) : Loop :=
  match ticks with
  | [] => leave XUnobserved []
  | t :: rest =>
      let elapsed := now t - w_start w in
      if elapsed >? timeout then
        leave (XTimeout elapsed) (EvKill :: log_error (MTimeout elapsed))
      else
        match rd t with
        | RdBlocks => leave XBlocked [EvReadline]
        | RdRaises => leave XRaised [EvReadline]
        | RdText raw =>
            if truthy raw then
              let line := strip raw in
              if is_rate_limit line then
                {| lp_exit := XRateLimited;
                   lp_lines := [line];
                   lp_evs := [EvReadline; EvLog INFO (MBackendLine line);
                              EvLog INFO MRateLimited; EvKill] |}
              else
                let r := supervise timeout rest in
                {| lp_exit := lp_exit r;
                   lp_lines := line :: lp_lines r;
                   lp_evs := EvReadline :: EvLog INFO (MBackendLine line) :: lp_evs r |}
            else
              match pl t with
              | Some code => leave (XExited code) [EvReadline; EvPoll]
              | None =>
                  let r := supervise timeout rest in
                  {| lp_exit := lp_exit r;
                     lp_lines := lp_lines r;
                     lp_evs := EvReadline :: EvPoll :: lp_evs r |}
              end
        end
  end.

(** What is known of the spawned process when the function is left. *)
Inductive ProcStatus :=
| NotSpawned
| Alive                         (* spawned; neither killed nor seen to exit *)
| Terminated (returncode : Z).

Record Supervised := {
  s_ret : Outcome;
  s_effects : list Event;
  s_proc : ProcStatus
}.

(** The code of a process after [kill()]. *)
Definition status_after_kill : Z :=
  match w_exited_at_kill w with
  | Some code => code
  | None => w_kill_status w
  end.

Definition spotdl_cmd (spotify_url output_dir : string) : list string :=
  [w_executable w; "-m"; "spotdl";
   spotify_url;
   "--output"; output_dir;
   "--format"; "mp3";
   "--bitrate"; "320k"].

(** Lines 153-172, with the lines read and the code of line 150. *)
Definition conclude (spotify_url output_dir : string) (rate_limited : bool)
           (output_lines : list string) (returncode : Z) : Ran :=
  let elapsed := w_end w - w_start w in
  if rate_limited then
    let (track_name, e) := extract_spotify_track_name spotify_url in
    let e1 := EvLog INFO MFallingBack :: e in
    match track_name with
    | Some name =>
        if truthy name then
          let r := download_song_with_metadata name output_dir in
          {| ret := ret r; effects := e1 ++ effects r |}
        else returns (PyBool false) (e1 ++ log_error MNoTrackName)
    | None => returns (PyBool false) (e1 ++ log_error MNoTrackName)
    end
  else
    let e1 := [EvLog INFO (MFinished elapsed returncode)] in
    if returncode =? 0
    then returns (PyBool true) (e1 ++ [EvLog INFO (MDownloadedTo output_dir)])
    else returns (PyBool false)
                 (e1 ++ log_error (MExitCode returncode)
                     ++ log_error (MFullOutput output_lines)).

(** The handler of lines 174-177. *)
Definition on_exception : list Event :=
  log_error_exc (MException (w_end w - w_start w)).

Definition download_from_spotify_url (spotify_url output_dir : string) (timeout : Z)
  : Supervised :=
  let cmd := spotdl_cmd spotify_url output_dir in
  let e0 := [EvMakedirs output_dir; EvLog INFO (MStart spotify_url);
             EvLog INFO (MCommand cmd)] in
  if negb (w_spawn_ok w) then
    {| s_ret := Returns (PyBool false);
       s_effects := e0 ++ on_exception;
       s_proc := NotSpawned |}
  else
    let lp := supervise timeout (w_ticks w) in
    let e1 := e0 ++ EvSpawn cmd :: lp_evs lp in
    let after (rate_limited : bool) (returncode : Z) :=
      let r := conclude spotify_url output_dir rate_limited (lp_lines lp) returncode in
      {| s_ret := ret r;
         s_effects := e1 ++ EvReap :: effects r;
         s_proc := Terminated returncode |} in
    match lp_exit lp with
    | XTimeout _ => after false status_after_kill
    | XExited code => after false code
    | XRateLimited => after true status_after_kill
    | XRaised =>
        {| s_ret := Returns (PyBool false);
           s_effects := e1 ++ on_exception;
           s_proc := Alive |}
    | XBlocked => {| s_ret := NeverReturns; s_effects := e1; s_proc := Alive |}
    | XUnobserved => {| s_ret := Unobserved; s_effects := e1; s_proc := Alive |}
    end.

(** *** One turn of the loop of [main] (lines 356-371) *)

Inductive Turn :=
| Quit
| Again                        (* the empty line: [continue] *)
| Handled (r : Outcome).       (* the value of the call, which main drops *)

(** The [print()] of line 371, reached when the call came back. *)
Definition then_blank (o : Outcome) (evs : list Event) : list Event :=
  match o with
  | Returns _ => evs ++ [EvPrint MBlank]
  | _ => evs
  end.

Definition main_turn (typed : string) : Turn * list Event :=
  let query := strip typed in
  if existsb (String.eqb (lower query)) ["quit"; "exit"; "q"]%string then
    (Quit, [EvPrint MGoodbye])
  else if negb (truthy query) then (Again, [])
  else if contains "spotify.com" query then
    let r := download_from_spotify_url query "downloads" 120 in
    (Handled (s_ret r), then_blank (s_ret r) (s_effects r))
  else
    let r := download_song query "downloads" in
    (Handled (ret r), then_blank (ret r) (effects r)).

End Program.

(** ** Reading the list of effects *)

(** The commands given to [subprocess.run], in order. *)
Definition runs (evs : list Event) : list (list string) :=
  flat_map (fun e => match e with EvRun cmd _ => [cmd] | _ => [] end) evs.

(** The processes spawned, in order. *)
Definition spawns (evs : list Event) : list (list string) :=
  flat_map (fun e => match e with EvSpawn cmd => [cmd] | _ => [] end) evs.

(** The pages and files fetched over the network, in order. *)
Definition fetches (evs : list Event) : list string :=
  flat_map (fun e => match e with
                     | EvUrlopen url _ => [url]
                     | EvUrlretrieve url _ _ => [url]
                     | _ => []
                     end) evs.

(** The number of reads of the backend's output. *)
Definition reads (evs : list Event) : nat :=
  List.length (filter (fun e => match e with EvReadline => true | _ => false end) evs).

Definition kills (evs : list Event) : nat :=
  List.length (filter (fun e => match e with EvKill => true | _ => false end) evs).

(** ** The course of a supervised run *)

(** [sub] occurs in [s]. *)
Definition mentions (sub s : string) : Prop :=
  exists a b, s = (a ++ sub ++ b)%string.

(** The rate-limit signal in the words of the specification: the line in
    lower case holds both "rate" and "limit". *)
Definition signals_rate_limit (line : string) : Prop :=
  mentions "rate" (lower line) /\ mentions "limit" (lower line).

(** The turn reads a line of output. *)
Definition reads_line (t : Tick) (line : string) : Prop :=
  exists raw, rd t = RdText raw /\ truthy raw = true /\ line = strip raw.

(** A turn after which the loop goes on: the time is within the budget and
    the read gives either a line without the signal or nothing while the
    process is still running. *)
Definition goes_on (w : World) (timeout : Z) (t : Tick) : Prop :=
  now t - w_start w <= timeout
  /\ ((exists line, reads_line t line /\ ~ signals_rate_limit line)
      \/ (rd t = RdText EmptyString /\ pl t = None)).

(** The lines that such turns add to [output_lines]. *)
Definition captured (ticks : list Tick) : list string :=
  flat_map (fun t => match rd t with
                     | RdText raw => if truthy raw then [strip raw] else []
                     | _ => []
                     end) ticks.

(** The effects of such turns. *)
Definition turns_trace (ticks : list Tick) : list Event :=
  flat_map (fun t => match rd t with
                     | RdText raw =>
                         if truthy raw
                         then [EvReadline; EvLog INFO (MBackendLine (strip raw))]
                         else [EvReadline; EvPoll]
                     | _ => []
                     end) ticks.

(** The effects of [download_from_spotify_url] up to the start of its
    loop. *)
Definition prologue (w : World) (spotify_url output_dir : string) : list Event :=
  [EvMakedirs output_dir; EvLog INFO (MStart spotify_url);
   EvLog INFO (MCommand (spotdl_cmd w spotify_url output_dir));
   EvSpawn (spotdl_cmd w spotify_url output_dir)].

(** The query of the fallback: the name scraped from the page, when there
    is one and it is not empty (lines 157-158). *)
Definition fallback_query (w : World) (spotify_url : string) : option string :=
  match fst (extract_spotify_track_name w spotify_url) with
  | Some name => if truthy name then Some name else None
  | None => None
  end.

(** ** Worlds and data of the examples *)

(** The candidates of the example: (100,100), (500,500), (200,900). *)
Definition candidate (url : string) (width height : Z) : Thumbnail :=
  {| th_url := Some url; th_width := Some width; th_height := Some height |}.

Definition example_candidates : list Thumbnail :=
  [candidate "small" 100 100; candidate "square" 500 500; candidate "tall" 200 900].

Definition info_with_thumbnails (l : list Thumbnail) : Info :=
  {| i_title := Some "T"%string; i_artist := Some "A"%string; i_uploader := None;
     i_album := None; i_duration := None; i_webpage_url := Some "u"%string;
     i_thumbnail := Some "default"%string; i_thumbnails := l |}.


(** Turns of a run. *)
Definition line_tick (at_ : Z) (text : string) : Tick :=
  {| now := at_; rd := RdText (text ++ nl); pl := None |}.

Definition exit_tick (at_ : Z) (code : Z) : Tick :=
  {| now := at_; rd := RdText EmptyString; pl := Some code |}.

Definition raise_tick (at_ : Z) : Tick :=
  {| now := at_; rd := RdRaises; pl := None |}.


Definition has_arg (a : string) (cmd : list string) : bool :=
  existsb (String.eqb a) cmd.

(** A search backend that answers the metadata-only call, and whose
    download exits with [code] after writing [files]. *)
Definition yt_dlp (code : Z) (files : list string) (cmd : list string) : RunResult :=
  if has_arg "--dump-json" cmd then RunDone 0 "{...}" EmptyString []
  else RunDone code EmptyString "ERROR" files.


Definition believer : Info :=
  {| i_title := Some "Believer"%string;
     i_artist := Some "Imagine Dragons"%string;
     i_uploader := Some "ImagineDragonsVEVO"%string;
     i_album := Some "Evolve"%string;
     i_duration := Some 217;
     i_webpage_url := Some "https://www.youtube.com/watch?v=7wtfhZwyrcc"%string;
     i_thumbnail := Some "https://i.ytimg.com/vi/7wtfhZwyrcc/default.jpg"%string;
     i_thumbnails := example_candidates |}.

Definition world_of (ticks : list Tick) (ended_at : Z) (page : option string)
           (run : list string -> RunResult) : World :=
  {| w_executable := "python";
     w_start := 0;
     w_spawn_ok := true;
     w_ticks := ticks;
     w_exited_at_kill := None;
     w_kill_status := -9;
     w_end := ended_at;
     w_urlopen := fun _ => page;
     w_run := run;
     w_json_loads := fun _ => ParsedDict believer;
     w_urlretrieve := fun _ _ => Saved |}.

Definition track_url : string := "https://open.spotify.com/track/7qiZfU4dY1lWllzX7mPBI3".

Definition track_page : string :=
  ("<html><head><meta property=" ++ dq ++ "og:title" ++ dq ++ " content=" ++ dq
   ++ "Shape of You" ++ dq ++ "/></head></html>")%string.

(** A run that is throttled on its third line. *)
Definition throttled_ticks : list Tick :=
  [line_tick 1 "Processing query";
   line_tick 2 "Found 1 song";
   line_tick 3 "Your application has reached a rate/request LIMIT"].

Definition throttled_world : World :=
  world_of throttled_ticks 3 (Some track_page)
           (yt_dlp 0 ["downloads/Imagine Dragons - Believer.mp3"%string]).

(** A run that is still going at the deadline of 120 seconds. *)
Definition overdue_ticks : list Tick :=
  [line_tick 5 "Processing query"; line_tick 130 "Downloading"].

Definition overdue_world : World :=
  world_of overdue_ticks 130 None (fun _ => RunRaises).

(** A run whose backend gives up by itself. *)
Definition failing_ticks : list Tick :=
  [line_tick 1 "Processing query"; line_tick 2 "LookupError: No results found";
   exit_tick 3 1].

Definition failing_world : World :=
  world_of failing_ticks 3 None (fun _ => RunRaises).

(** A throttled run whose fallback search finds nothing. *)
Definition throttled_no_result_world : World :=
  world_of throttled_ticks 3 (Some track_page) (fun _ => RunDone 1 EmptyString "ERROR" []).

(** A run that downloads the track. *)
Definition succeeding_ticks : list Tick :=
  [line_tick 1 "Processing query"; line_tick 9 "Downloaded"; exit_tick 10 0].

Definition succeeding_world : World :=
  world_of succeeding_ticks 10 None (fun _ => RunRaises).

(** A world in which the search backend finds and downloads the track. *)
Definition searching_world : World :=
  world_of [] 0 None (yt_dlp 0 ["downloads/Imagine Dragons - Believer.mp3"%string]).

(** A world in which the search backend finds the track and then fails to
    download it: the download command exits with code 1 and writes no
    file. *)
Definition lost_download_world : World :=
  world_of [] 0 None (yt_dlp 1 []).

(** The same behind a throttled run of the primary backend. *)
Definition throttled_lost_download_world : World :=
  world_of throttled_ticks 3 (Some track_page) (yt_dlp 1 []).

(** The request of main that is neither a command to leave, nor empty, nor
    a service URL. *)
Definition free_text (query : string) : Prop :=
  existsb (String.eqb (lower query)) ["quit"; "exit"; "q"]%string = false
  /\ truthy query = true
  /\ contains "spotify.com" query = false.

(** A run in which the second read of the backend's output raises. *)
Definition interrupted_ticks : list Tick :=
  [line_tick 1 "Processing query"; raise_tick 2].

Definition interrupted_world : World :=
  world_of interrupted_ticks 2 None (fun _ => RunRaises).




(** ** Further readings of the effects *)

(** The lines of the backend that were logged, in order. *)
Definition logged_lines (evs : list Event) : list string :=
  flat_map (fun e => match e with
                     | EvLog INFO (MBackendLine line) => [line]
                     | _ => []
                     end) evs.

(** The characters of a text. *)
Definition chars (s : string) : list ascii := list_ascii_of_string s.

(** A run that passes the deadline although its process had just ended
    with code 0 by itself. *)
Definition raced_world : World :=
  {| w_executable := "python";
     w_start := 0;
     w_spawn_ok := true;
     w_ticks := [line_tick 119 "Downloaded"; line_tick 121 EmptyString];
     w_exited_at_kill := Some 0;
     w_kill_status := -9;
     w_end := 121;
     w_urlopen := fun _ => None;
     w_run := fun _ => RunRaises;
     w_json_loads := fun _ => JSONDecodeError;
     w_urlretrieve := fun _ _ => RetrieveRaises |}.

(** The metadata-only call does not give a record that can be used: it
    exits with a code other than 0, or raises, or prints what is no JSON,
    or JSON that is no object, or a record without the address of the
    page. *)
Definition metadata_unusable (w : World) (query : string) : Prop :=
  match w_run w (info_cmd w query) with
  | RunDone returncode stdout _ _ =>
      returncode <> 0
      \/ match w_json_loads w stdout with
         | ParsedDict info => i_webpage_url info = None
         | ParsedOther | JSONDecodeError => True
         end
  | RunRaises => True
  | RunHangs => False
  end.

(** The metadata-only call gives the record [info], with the address
    [url] of the page. *)
Definition metadata_resolved (w : World) (query : string) (info : Info) (url : string)
  : Prop :=
  exists stdout stderr files,
    w_run w (info_cmd w query) = RunDone 0 stdout stderr files
    /\ w_json_loads w stdout = ParsedDict info
    /\ i_webpage_url info = Some url.

(** A search backend whose metadata-only call prints no JSON. *)
Definition garbled_world : World :=
  {| w_executable := "python";
     w_start := 0;
     w_spawn_ok := true;
     w_ticks := [];
     w_exited_at_kill := None;
     w_kill_status := -9;
     w_end := 0;
     w_urlopen := fun _ => None;
     w_run := yt_dlp 0 [];
     w_json_loads := fun _ => JSONDecodeError;
     w_urlretrieve := fun _ _ => Saved |}.

(** A world in which the track is found and downloaded and the cover
    cannot be fetched. *)
Definition coverless_world : World :=
  {| w_executable := "python";
     w_start := 0;
     w_spawn_ok := true;
     w_ticks := [];
     w_exited_at_kill := None;
     w_kill_status := -9;
     w_end := 0;
     w_urlopen := fun _ => None;
     w_run := yt_dlp 0 ["downloads/Imagine Dragons - Believer.mp3"%string];
     w_json_loads := fun _ => ParsedDict believer;
     w_urlretrieve := fun _ _ => RetrieveRaises |}.

(** ** The start of the program and its loop (lines 38-49 and 341-371) *)

(** Which exception it is, when running a command raises. *)
Inductive Raised := FileNotFoundError | OtherException.

(** How a call of this part ends. *)
Inductive Call (A : Type) :=
| Ret (a : A)
| Raise
| Hang.

Arguments Ret {A} a.
Arguments Raise {A}.
Arguments Hang {A}.

(** [check_yt_dlp()]: the run is made with [check=True], so that a code
    other than 0 raises [CalledProcessError]; that exception and
    [FileNotFoundError] are caught, any other goes through. *)
Definition check_yt_dlp (w : World) (raised : list string -> Raised)
  : Call bool * list Event :=
  let cmd := get_yt_dlp_cmd w ++ ["--version"%string] in
  match w_run w cmd with
  | RunDone returncode _ _ files =>
      if returncode =? 0 then (Ret true, [EvRun cmd files])
      else (Ret false, [EvRun cmd files])
  | RunRaises =>
      match raised cmd with
      | FileNotFoundError => (Ret false, [EvRun cmd []])
      | OtherException => (Raise, [EvRun cmd []])
      end
  | RunHangs => (Hang, [EvRun cmd []])
  end.

Definition pip_install_cmd (w : World) : list string :=
  [w_executable w; "-m"; "pip"; "install"; "-U"; "yt-dlp"]%string.

(** The texts that [main] and [install_yt_dlp] print. *)
Inductive Notice :=
| NInstalling        (* line 48 *)
| NNotFound          (* line 344 *)
| NRule              (* lines 347 and 349 *)
| NTitle             (* line 348 *)
| NCommands          (* line 350 *)
| NHelpName          (* line 351 *)
| NHelpUrl           (* line 352 *)
| NHelpQuit          (* line 353 *)
| NBlankLine.        (* line 354 *)

(** What [main] does: an effect of a function it calls, a text it prints,
    or a call of [input]. *)
Inductive MainEvent :=
| Did (e : Event)
| Told (n : Notice)
| Prompted.

(** [install_yt_dlp()]: with [check=True] a code other than 0 raises, and
    nothing is caught. *)
Definition install_yt_dlp (w : World) : Call unit * list MainEvent :=
  let cmd := pip_install_cmd w in
  match w_run w cmd with
  | RunDone returncode _ _ files =>
      if returncode =? 0 then (Ret tt, [Told NInstalling; Did (EvRun cmd files)])
      else (Raise, [Told NInstalling; Did (EvRun cmd files)])
  | RunRaises => (Raise, [Told NInstalling; Did (EvRun cmd [])])
  | RunHangs => (Hang, [Told NInstalling; Did (EvRun cmd [])])
  end.

(** How [main] ends. *)
Inductive MainEnd :=
| Left           (* the [break] of line 361 *)
| Crashed        (* an exception that nothing catches *)
| Stuck          (* a call that never returns *)
| Unseen.        (* a request beyond the ticks of its world *)

(** One turn of the loop with what [main] itself does around it. *)
Definition turn_events (typed : string * World) : list MainEvent :=
  Prompted :: map Did (snd (main_turn (snd typed) (fst typed))).

(** The loop of lines 356-371.  Each line typed comes with the world in
    which its request is served; when no line is left, [input] raises
    [EOFError]. *)
Fixpoint main_loop (typed : list (string * World)) : MainEnd * list MainEvent :=
  match typed with
  | [] => (Crashed, [Prompted])
  | t :: rest =>
      match fst (main_turn (snd t) (fst t)) with
      | Quit => (Left, turn_events t)
      | Again | Handled (Returns _) =>
          let (e, more) := main_loop rest in (e, turn_events t ++ more)
      | Handled NeverReturns => (Stuck, turn_events t)
      | Handled Unobserved => (Unseen, turn_events t)
      end
  end.

Definition banner : list MainEvent :=
  [Told NRule; Told NTitle; Told NRule; Told NCommands; Told NHelpName;
   Told NHelpUrl; Told NHelpQuit; Told NBlankLine].

(** [main()], in the world [w] for its start. *)
Definition main (w : World) (raised : list string -> Raised)
           (typed : list (string * World)) : MainEnd * list MainEvent :=
  let (checked, e0) := check_yt_dlp w raised in
  let e1 := map Did e0 in
  let go_on (before : list MainEvent) :=
    let (e, more) := main_loop typed in (e, before ++ banner ++ more) in
  match checked with
  | Ret true => go_on e1
  | Ret false =>
      let (installed, e2) := install_yt_dlp w in
      match installed with
      | Ret _ => go_on (e1 ++ Told NNotFound :: e2)
      | Raise => (Crashed, e1 ++ Told NNotFound :: e2)
      | Hang => (Stuck, e1 ++ Told NNotFound :: e2)
      end
  | Raise => (Crashed, e1)
  | Hang => (Stuck, e1)
  end.

(** The turn comes back to the loop: an empty line, or a request whose
    call returns. *)
Definition comes_back (t : string * World) : Prop :=
  fst (main_turn (snd t) (fst t)) = Again
  \/ exists v, fst (main_turn (snd t) (fst t)) = Handled (Returns v).

(** The commands that [main] ran, in order. *)
Definition main_runs (evs : list MainEvent) : list (list string) :=
  flat_map (fun e => match e with Did (EvRun cmd _) => [cmd] | _ => [] end) evs.

(** The number of times [main] asked for a line. *)
Definition prompts (evs : list MainEvent) : nat :=
  List.length (filter (fun e => match e with Prompted => true | _ => false end) evs).

(** A session: a song, an empty line, a throttled service URL, a song that
    cannot be downloaded, and the command to leave. *)
Definition a_session : list (string * World) :=
  [("Imagine Dragons Believer"%string, searching_world);
   ("   "%string, searching_world);
   (track_url, throttled_world);
   ("Unknown song"%string, lost_download_world);
   (" QUIT "%string, searching_world);
   ("never typed"%string, searching_world)].
(** ** File names *)

Lemma is_illegal_iff (c : ascii) :
  is_illegal c = true <->
  (c = "<" \/ c = ">" \/ c = ":" \/ c = dquote \/ c = "/" \/ c = backslash
   \/ c = "|" \/ c = "?" \/ c = "*")%char.
Proof.
  unfold is_illegal, illegal_chars. rewrite existsb_exists. split.
  - intros [x [Hin Heq]]. apply Ascii.eqb_eq in Heq. subst x.
    simpl in Hin. intuition (subst; auto).
  - intros H. exists c. split; [| apply Ascii.eqb_refl].
    simpl. intuition (subst; auto 10).
Qed.

Lemma sanitize_get (s : string) :
  forall n, String.get n (sanitize s)
            = option_map (fun c => if is_illegal c then "_"%char else c) (String.get n s).
Proof.
  induction s as [| c s IH]; intros n; simpl.
  - reflexivity.
  - destruct n; [reflexivity | apply IH].
Qed.

Lemma sanitize_length (s : string) : String.length (sanitize s) = String.length s.
Proof. induction s; simpl; congruence. Qed.

(** C9.  Sanitizing a file name replaces each of the characters
    < > : double-quote / backslash | ? * by an underscore and keeps every
    other character in its place; the name built on line 303 is the
    sanitized "artist - title", and "AC/DC - T.N.T?" gives
    "AC_DC - T.N.T_". *)
Theorem sanitize_replaces_illegal_characters :
  (forall s n,
      String.get n (sanitize s)
      = match String.get n s with
        | Some c =>
            if (Ascii.eqb c "<" || Ascii.eqb c ">" || Ascii.eqb c ":"
                || Ascii.eqb c dquote || Ascii.eqb c "/" || Ascii.eqb c backslash
                || Ascii.eqb c "|" || Ascii.eqb c "?" || Ascii.eqb c "*")%char
            then Some "_"%char else Some c
        | None => None
        end)
  /\ (forall s, String.length (sanitize s) = String.length s)
  /\ (forall m, safe_filename m = sanitize (artist m ++ " - " ++ title m)%string)
  /\ sanitize "AC/DC - T.N.T?" = "AC_DC - T.N.T_"%string.
Proof.
  split; [| split; [apply sanitize_length | split; reflexivity]].
  intros s n. rewrite sanitize_get.
  destruct (String.get n s) as [c |]; simpl; [| reflexivity].
  unfold is_illegal, illegal_chars. simpl. rewrite orb_false_r.
  rewrite !orb_assoc.
  match goal with |- context [if ?b then _ else _] => destruct b end; reflexivity.
Qed.

(** ** Thumbnail selection *)

Section Maximum.

Context {A : Type} (key : A -> Z).

(** [max_from] gives an item of the sequence that no item beats and that
    every earlier item is strictly below. *)
Lemma max_from_first_maximum (l : list A) :
  forall best0,
    exists i,
      nth_error (best0 :: l) i = Some (max_from key best0 l)
      /\ (forall y, In y (best0 :: l) -> key y <= key (max_from key best0 l))
      /\ (forall j y, (j < i)%nat -> nth_error (best0 :: l) j = Some y ->
                      key y < key (max_from key best0 l)).
Proof.
  induction l as [| x l IH]; intros best0.
  - exists 0%nat. simpl. repeat split.
    + intros y [-> | []]. lia.
    + intros j y Hj. lia.
  - simpl max_from. destruct (Z.gtb_spec (key x) (key best0)) as [Hgt | Hle].
    + destruct (IH x) as [i [Hi [Hall Hbefore]]].
      assert (Hx : key x <= key (max_from key x l)) by (apply Hall; left; reflexivity).
      exists (S i). repeat split.
      * exact Hi.
      * intros y [-> | Hy]; [lia | apply Hall, Hy].
      * intros [| j] y Hj Hnth; simpl in Hnth.
        -- injection Hnth as <-. lia.
        -- apply (Hbefore j); [lia | exact Hnth].
    + destruct (IH best0) as [i [Hi [Hall Hbefore]]].
      assert (H0 : key best0 <= key (max_from key best0 l))
        by (apply Hall; left; reflexivity).
      destruct i as [| i].
      * exists 0%nat. simpl in Hi. injection Hi as Hi. repeat split.
        -- simpl. congruence.
        -- intros y [-> | [-> | Hy]]; [lia | lia | apply Hall; right; exact Hy].
        -- intros j y Hj. lia.
      * exists (S (S i)). repeat split.
        -- exact Hi.
        -- intros y [-> | [-> | Hy]]; [lia | lia | apply Hall; right; exact Hy].
        -- intros [| [| j]] y Hj Hnth; simpl in Hnth.
           ++ injection Hnth as <-.
              apply (Hbefore 0%nat); [lia | reflexivity].
           ++ injection Hnth as <-.
              assert (key best0 < key (max_from key best0 l))
                by (apply (Hbefore 0%nat); [lia | reflexivity]).
              lia.
           ++ apply (Hbefore (S j)); [lia | exact Hnth].
Qed.

End Maximum.

(** C8.  For a non-empty list of candidates the thumbnail URL of the
    metadata is the URL of a candidate whose width times height (an absent
    dimension counting as zero) is the greatest of the list, and which is
    the first of the list with that area; for the candidates (100,100),
    (500,500), (200,900) it is the one of 500 by 500. *)
Theorem thumbnail_is_first_of_largest_area (info : Info) :
  i_thumbnails info <> [] ->
  exists i best,
    nth_error (i_thumbnails info) i = Some best
    /\ thumbnail_url (build_metadata info) = get (th_url best) (get (i_thumbnail info) EmptyString)
    /\ (forall url, th_url best = Some url -> thumbnail_url (build_metadata info) = url)
    /\ area best = get (th_height best) 0 * get (th_width best) 0
    /\ (forall y, In y (i_thumbnails info) -> area y <= area best)
    /\ (forall j y, (j < i)%nat -> nth_error (i_thumbnails info) j = Some y ->
                    area y < area best)
    /\ thumbnail_url (build_metadata (info_with_thumbnails example_candidates))
       = "square"%string.
Proof.
  intros Hne. simpl. unfold select_thumbnail_url.
  destruct (i_thumbnails info) as [| x l]; [congruence |].
  destruct (max_from_first_maximum area l x) as [i [Hi [Hall Hbefore]]].
  exists i, (max_from area x l). simpl.
  repeat split; auto.
  intros url Hurl. rewrite Hurl. reflexivity.
Qed.

Lemma thumbnail_is_first_of_largest_area_witness :
  i_thumbnails (info_with_thumbnails example_candidates) <> []
  /\ exists i best,
       nth_error example_candidates i = Some best
       /\ thumbnail_url (build_metadata (info_with_thumbnails example_candidates))
          = get (th_url best) "default"
       /\ (forall y, In y example_candidates -> area y <= area best).
Proof.
  split; [discriminate |].
  destruct (thumbnail_is_first_of_largest_area (info_with_thumbnails example_candidates))
    as [i [best [Hi [Hurl [_ [_ [Hall _]]]]]]].
  - discriminate.
  - exists i, best. split; [exact Hi |]. split; [exact Hurl | exact Hall].
Defined.

(** ** Substrings *)

Lemma prefix_iff (sub s : string) :
  String.prefix sub s = true <-> exists b, s = (sub ++ b)%string.
Proof.
  revert s. induction sub as [| c sub IH]; intros s; simpl.
  - split; [intros _; exists s; reflexivity | destruct s; reflexivity].
  - destruct s as [| d s]; simpl.
    + split; [discriminate | intros [b Hb]; discriminate].
    + destruct (ascii_dec c d) as [-> | Hne].
      * rewrite IH. split; intros [b Hb]; exists b; congruence.
      * split; [discriminate | intros [b Hb]; congruence].
Qed.

Lemma contains_iff (sub s : string) : contains sub s = true <-> mentions sub s.
Proof.
  unfold mentions. induction s as [| c s IH].
  - cbn [contains]. rewrite orb_false_r, prefix_iff. split.
    + intros [b Hb]. exists EmptyString, b. exact Hb.
    + intros [a [b Hab]]. destruct a; simpl in Hab; [exists b; exact Hab |].
      discriminate.
  - cbn [contains]. rewrite orb_true_iff, prefix_iff, IH. split.
    + intros [[b Hb] | [a [b Hab]]].
      * exists EmptyString, b. exact Hb.
      * exists (String c a), b. simpl. congruence.
    + intros [a [b Hab]]. destruct a as [| d a]; simpl in Hab.
      * left. exists b. exact Hab.
      * right. exists a, b. congruence.
Qed.

Lemma is_rate_limit_iff (line : string) :
  is_rate_limit line = true <-> signals_rate_limit line.
Proof.
  unfold is_rate_limit, signals_rate_limit.
  rewrite andb_true_iff, !contains_iff. reflexivity.
Qed.

Lemma is_rate_limit_false_iff (line : string) :
  is_rate_limit line = false <-> ~ signals_rate_limit line.
Proof.
  rewrite <- is_rate_limit_iff. destruct (is_rate_limit line); split; congruence.
Qed.

(** ** The supervision loop *)

Section Supervision.

Variable w : World.
Variable timeout : Z.

(** Turns after which the loop goes on add their lines and effects in
    front of what the rest of the run gives. *)
Lemma supervise_goes_on (pre rest : list Tick) :
  Forall (goes_on w timeout) pre ->
  supervise w timeout (pre ++ rest)
  = {| lp_exit := lp_exit (supervise w timeout rest);
       lp_lines := captured pre ++ lp_lines (supervise w timeout rest);
       lp_evs := turns_trace pre ++ lp_evs (supervise w timeout rest) |}.
Proof.
  induction 1 as [| t pre Ht Hpre IH].
  - simpl. destruct (supervise w timeout rest); reflexivity.
  - destruct Ht as [Htime Hrd].
    change ((t :: pre) ++ rest) with (t :: (pre ++ rest)).
    simpl supervise.
    destruct (Z.gtb_spec (now t - w_start w) timeout) as [Hgt | _]; [lia |].
    destruct Hrd as [[line [[raw [Hraw [Htruthy ->]]] Hno]] | [Hraw Hpl]].
    + apply is_rate_limit_false_iff in Hno.
      simpl. rewrite Hraw, Htruthy, Hno, IH. reflexivity.
    + simpl. rewrite Hraw, Hpl. simpl. rewrite IH. reflexivity.
Qed.

(** The signal on a line ends the loop at once. *)
Lemma supervise_rate_limit_line (t : Tick) (post : list Tick) (line : string) :
  now t - w_start w <= timeout ->
  reads_line t line ->
  signals_rate_limit line ->
  supervise w timeout (t :: post)
  = {| lp_exit := XRateLimited;
       lp_lines := [line];
       lp_evs := [EvReadline; EvLog INFO (MBackendLine line);
                  EvLog INFO MRateLimited; EvKill] |}.
Proof.
  intros Htime [raw [Hraw [Htruthy ->]]] Hsig.
  apply is_rate_limit_iff in Hsig. simpl.
  destruct (Z.gtb_spec (now t - w_start w) timeout) as [Hgt | _]; [lia |].
  rewrite Hraw, Htruthy, Hsig. reflexivity.
Qed.

Lemma supervise_deadline (t : Tick) (post : list Tick) :
  timeout < now t - w_start w ->
  supervise w timeout (t :: post)
  = leave (XTimeout (now t - w_start w))
          [EvKill; EvLog ERROR (MTimeout (now t - w_start w))].
Proof.
  intros Htime. simpl.
  destruct (Z.gtb_spec (now t - w_start w) timeout) as [_ | Hle]; [reflexivity | lia].
Qed.

Lemma supervise_exit (t : Tick) (post : list Tick) (code : Z) :
  now t - w_start w <= timeout ->
  rd t = RdText EmptyString ->
  pl t = Some code ->
  supervise w timeout (t :: post) = leave (XExited code) [EvReadline; EvPoll].
Proof.
  intros Htime Hrd Hpl. simpl.
  destruct (Z.gtb_spec (now t - w_start w) timeout) as [Hgt | _]; [lia |].
  rewrite Hrd, Hpl. reflexivity.
Qed.

Lemma supervise_raise (t : Tick) (post : list Tick) :
  now t - w_start w <= timeout ->
  rd t = RdRaises ->
  supervise w timeout (t :: post) = leave XRaised [EvReadline].
Proof.
  intros Htime Hrd. simpl.
  destruct (Z.gtb_spec (now t - w_start w) timeout) as [Hgt | _]; [lia |].
  rewrite Hrd. reflexivity.
Qed.

End Supervision.

Lemma supervise_rate_limited_inv (w : World) (timeout : Z) (ticks : list Tick) :
  lp_exit (supervise w timeout ticks) = XRateLimited ->
  exists before line evs,
    lp_lines (supervise w timeout ticks) = before ++ [line]
    /\ signals_rate_limit line
    /\ Forall (fun l => ~ signals_rate_limit l) before
    /\ lp_evs (supervise w timeout ticks) = evs ++ [EvLog INFO MRateLimited; EvKill]
    /\ kills evs = 0%nat.
Proof.
  induction ticks as [| t ticks IH]; simpl; [discriminate |].
  destruct (now t - w_start w >? timeout); [discriminate |].
  destruct (rd t) as [raw | |]; try discriminate.
  destruct (truthy raw).
  - destruct (is_rate_limit (strip raw)) eqn:Hsig; simpl.
    + intros _. exists [], (strip raw), [EvReadline; EvLog INFO (MBackendLine (strip raw))].
      split; [reflexivity |]. split; [apply is_rate_limit_iff, Hsig |].
      split; [constructor |]. split; reflexivity.
    + intros Hexit. destruct (IH Hexit) as [before [line [evs [Hl [Hs [Hb [He Hk]]]]]]].
      exists (strip raw :: before), line,
        (EvReadline :: EvLog INFO (MBackendLine (strip raw)) :: evs).
      rewrite Hl, He. split; [reflexivity |]. split; [exact Hs |].
      split; [constructor; [apply is_rate_limit_false_iff, Hsig | exact Hb] |].
      split; [reflexivity | exact Hk].
  - destruct (pl t); simpl; [discriminate |].
    intros Hexit. destruct (IH Hexit) as [before [line [evs [Hl [Hs [Hb [He Hk]]]]]]].
    exists before, line, (EvReadline :: EvPoll :: evs).
    rewrite Hl, He. split; [reflexivity |]. split; [exact Hs |].
    split; [exact Hb |]. split; [reflexivity | exact Hk].
Qed.

(** C6.  A line of the backend's output is the rate-limit signal exactly
    when, in lower case, it holds both "rate" and "limit".  After turns
    that read lines without the signal, the turn that reads a line with it
    ends the loop: the process is killed right after that read, nothing is
    read any more, and the lines captured are those read so far with the
    signalling line last.  Conversely a run that ends rate-limited has the
    signal on its last captured line and on none before, and its last
    effect is the kill. *)
Theorem rate_limit_line_stops_supervision (w : World) (timeout : Z) :
  (forall pre t post line,
      Forall (goes_on w timeout) pre ->
      now t - w_start w <= timeout ->
      reads_line t line ->
      mentions "rate" (lower line) /\ mentions "limit" (lower line) ->
      supervise w timeout (pre ++ t :: post)
      = {| lp_exit := XRateLimited;
           lp_lines := captured pre ++ [line];
           lp_evs := turns_trace pre
                       ++ [EvReadline; EvLog INFO (MBackendLine line);
                           EvLog INFO MRateLimited; EvKill] |})
  /\ (forall ticks,
         lp_exit (supervise w timeout ticks) = XRateLimited ->
         exists before line evs,
           lp_lines (supervise w timeout ticks) = before ++ [line]
           /\ (mentions "rate" (lower line) /\ mentions "limit" (lower line))
           /\ Forall (fun l => ~ (mentions "rate" (lower l) /\ mentions "limit" (lower l)))
                     before
           /\ lp_evs (supervise w timeout ticks) = evs ++ [EvLog INFO MRateLimited; EvKill]
           /\ kills evs = 0%nat).
Proof.
  split.
  - intros pre t post line Hpre Htime Hline Hsig.
    rewrite (supervise_goes_on w timeout pre (t :: post) Hpre).
    rewrite (supervise_rate_limit_line w timeout t post line Htime Hline Hsig).
    reflexivity.
  - apply supervise_rate_limited_inv.
Qed.

Lemma line_tick_goes_on (w : World) (timeout at_ : Z) (text : string) :
  at_ - w_start w <= timeout ->
  truthy (text ++ nl) = true ->
  is_rate_limit (strip (text ++ nl)) = false ->
  goes_on w timeout (line_tick at_ text).
Proof.
  intros Htime Htruthy Hno. split; [exact Htime |]. left.
  exists (strip (text ++ nl)). split.
  - exists (text ++ nl)%string. repeat split. exact Htruthy.
  - apply is_rate_limit_false_iff, Hno.
Qed.

Lemma rate_limit_line_stops_supervision_witness :
  supervise throttled_world 120 throttled_ticks
  = {| lp_exit := XRateLimited;
       lp_lines := captured [line_tick 1 "Processing query"; line_tick 2 "Found 1 song"]
                     ++ ["Your application has reached a rate/request LIMIT"%string];
       lp_evs := turns_trace [line_tick 1 "Processing query"; line_tick 2 "Found 1 song"]
                   ++ [EvReadline;
                       EvLog INFO (MBackendLine
                                     "Your application has reached a rate/request LIMIT");
                       EvLog INFO MRateLimited; EvKill] |}.
Proof.
  apply (proj1 (rate_limit_line_stops_supervision throttled_world 120)
               [line_tick 1 "Processing query"; line_tick 2 "Found 1 song"]
               (line_tick 3 "Your application has reached a rate/request LIMIT")
               []).
  - apply Forall_cons; [| apply Forall_cons; [| apply Forall_nil]];
      apply line_tick_goes_on; simpl; try lia; reflexivity.
  - simpl. lia.
  - eexists. repeat split.
  - split; apply contains_iff; reflexivity.
Defined.

(** ** The URL path *)

Lemma runs_app (a b : list Event) : runs (a ++ b) = runs a ++ runs b.
Proof. apply flat_map_app. Qed.

Lemma fetches_app (a b : list Event) : fetches (a ++ b) = fetches a ++ fetches b.
Proof. apply flat_map_app. Qed.

Lemma spawns_app (a b : list Event) : spawns (a ++ b) = spawns a ++ spawns b.
Proof. apply flat_map_app. Qed.

Lemma turns_trace_quiet (ticks : list Tick) :
  runs (turns_trace ticks) = []
  /\ fetches (turns_trace ticks) = []
  /\ spawns (turns_trace ticks) = []
  /\ kills (turns_trace ticks) = 0%nat.
Proof.
  induction ticks as [| t ticks [IH1 [IH2 [IH3 IH4]]]]; [repeat split |].
  unfold turns_trace in *. simpl flat_map.
  rewrite runs_app, fetches_app, spawns_app, IH1, IH2, IH3.
  unfold kills in *. rewrite filter_app, length_app, IH4.
  destruct (rd t) as [raw | |]; [destruct (truthy raw) |..]; repeat split.
Qed.

Section UrlPath.

Variable w : World.
Variables spotify_url output_dir : string.
Variable timeout : Z.

Let elapsed := w_end w - w_start w.

Let pro := prologue w spotify_url output_dir.

(** The run that is killed at the deadline. *)
Lemma url_path_timeout (pre post : list Tick) (t : Tick) :
  w_spawn_ok w = true ->
  w_ticks w = pre ++ t :: post ->
  Forall (goes_on w timeout) pre ->
  timeout < now t - w_start w ->
  download_from_spotify_url w spotify_url output_dir timeout
  = {| s_ret := Returns (PyBool (status_after_kill w =? 0));
       s_effects :=
         pro ++ turns_trace pre
           ++ [EvKill; EvLog ERROR (MTimeout (now t - w_start w)); EvReap;
               EvLog INFO (MFinished elapsed (status_after_kill w))]
           ++ (if status_after_kill w =? 0
               then [EvLog INFO (MDownloadedTo output_dir)]
               else [EvLog ERROR (MExitCode (status_after_kill w));
                     EvLog ERROR (MFullOutput (captured pre))]);
       s_proc := Terminated (status_after_kill w) |}.
Proof.
  intros Hspawn Hticks Hpre Htime.
  unfold download_from_spotify_url. rewrite Hspawn, Hticks.
  rewrite (supervise_goes_on w timeout pre (t :: post) Hpre).
  rewrite (supervise_deadline w timeout t post Htime).
  simpl. unfold conclude. rewrite app_nil_r.
  destruct (status_after_kill w =? 0); simpl; f_equal;
    unfold pro, prologue; simpl; f_equal; f_equal; f_equal; f_equal;
    rewrite <- app_assoc; reflexivity.
Qed.

(** The run whose process ends by itself. *)
Lemma url_path_exit (pre post : list Tick) (t : Tick) (code : Z) :
  w_spawn_ok w = true ->
  w_ticks w = pre ++ t :: post ->
  Forall (goes_on w timeout) pre ->
  now t - w_start w <= timeout ->
  rd t = RdText EmptyString ->
  pl t = Some code ->
  download_from_spotify_url w spotify_url output_dir timeout
  = {| s_ret := Returns (PyBool (code =? 0));
       s_effects :=
         pro ++ turns_trace pre
           ++ [EvReadline; EvPoll; EvReap; EvLog INFO (MFinished elapsed code)]
           ++ (if code =? 0
               then [EvLog INFO (MDownloadedTo output_dir)]
               else [EvLog ERROR (MExitCode code);
                     EvLog ERROR (MFullOutput (captured pre))]);
       s_proc := Terminated code |}.
Proof.
  intros Hspawn Hticks Hpre Htime Hrd Hpl.
  unfold download_from_spotify_url. rewrite Hspawn, Hticks.
  rewrite (supervise_goes_on w timeout pre (t :: post) Hpre).
  rewrite (supervise_exit w timeout t post code Htime Hrd Hpl).
  simpl. unfold conclude. rewrite app_nil_r.
  destruct (code =? 0); simpl; f_equal;
    unfold pro, prologue; simpl; f_equal; f_equal; f_equal; f_equal;
    rewrite <- app_assoc; reflexivity.
Qed.

End UrlPath.



(** ** The metadata pipeline *)

Ltac split_cases :=
  repeat match goal with
         | |- context [match ?x with _ => _ end] => destruct x eqn:?; simpl
         end.

Section Pipeline.

Variable w : World.
Variables query output_dir : string.

Lemma finish_download_quiet (m : Metadata) :
  runs (effects (finish_download w m output_dir)) = []
  /\ spawns (effects (finish_download w m output_dir)) = [].
Proof. unfold finish_download. split_cases; split; reflexivity. Qed.

Lemma finish_download_value (m : Metadata) (v : PyValue) :
  ret (finish_download w m output_dir) = Returns v ->
  exists m', v = PyDict m'
             /\ file_path m' = Some (output_path_of m output_dir)
             /\ title m' = title m /\ artist m' = artist m.
Proof.
  unfold finish_download. split_cases; intros H; try discriminate;
    injection H as <-; eexists; repeat split.
Qed.

(** The commands of the pipeline: the metadata-only search first and then,
    at most, one download of the address found, to the path made of the
    record that the search gave. *)
Lemma pipeline_runs :
  runs (effects (download_song_with_metadata w query output_dir)) = [info_cmd w query]
  \/ exists out err files info url,
      w_run w (info_cmd w query) = RunDone 0 out err files
      /\ w_json_loads w out = ParsedDict info
      /\ i_webpage_url info = Some url
      /\ runs (effects (download_song_with_metadata w query output_dir))
         = [info_cmd w query;
            download_cmd w url (output_path_of (build_metadata info) output_dir)].
Proof.
  unfold download_song_with_metadata.
  destruct (w_run w (info_cmd w query)) as [rc out err files | |] eqn:Hrun;
    simpl; auto.
  destruct (Z.eqb_spec rc 0) as [-> | Hrc]; simpl; auto.
  destruct (w_json_loads w out) as [info | |] eqn:Hparse; simpl; auto.
  unfold download_resolved.
  destruct (i_webpage_url info) as [url |] eqn:Hurl; simpl; auto.
  right. exists out, err, files, info, url.
  split; [reflexivity |]. split; [exact Hparse |]. split; [exact Hurl |].
  destruct (w_run w (download_cmd w url (output_path_of (build_metadata info) output_dir)));
    simpl; try reflexivity.
  destruct (finish_download_quiet (build_metadata info)) as [Hq _].
  rewrite Hq. reflexivity.
Qed.

Lemma pipeline_spawns :
  spawns (effects (download_song_with_metadata w query output_dir)) = [].
Proof.
  unfold download_song_with_metadata, download_resolved.
  destruct (w_run w (info_cmd w query)) as [rc out err files | |]; simpl; auto.
  destruct (rc =? 0); simpl; auto.
  destruct (w_json_loads w out) as [info | |]; simpl; auto.
  destruct (i_webpage_url info) as [url |]; simpl; auto.
  destruct (w_run w (download_cmd w url (output_path_of (build_metadata info) output_dir)));
    simpl; try reflexivity.
  apply finish_download_quiet.
Qed.

(** What the pipeline returns is [None] or the metadata with the path of
    the audio file. *)
Lemma pipeline_value (v : PyValue) :
  ret (download_song_with_metadata w query output_dir) = Returns v ->
  v = PyNone
  \/ exists m info,
      v = PyDict m
      /\ file_path m = Some (output_path_of (build_metadata info) output_dir).
Proof.
  unfold download_song_with_metadata, download_resolved.
  destruct (w_run w (info_cmd w query)) as [rc out err files | |]; simpl;
    try (intros H; injection H as <-; auto; fail); try discriminate.
  destruct (rc =? 0); simpl; try (intros H; injection H as <-; auto; fail).
  destruct (w_json_loads w out) as [info | |]; simpl;
    try (intros H; injection H as <-; auto; fail).
  destruct (i_webpage_url info) as [url |]; simpl;
    try (intros H; injection H as <-; auto; fail).
  destruct (w_run w (download_cmd w url (output_path_of (build_metadata info) output_dir)));
    simpl; try (intros H; injection H as <-; auto; fail); try discriminate.
  intros H. apply finish_download_value in H. destruct H as [m [-> [Hp _]]].
  right. exists m, info. split; [reflexivity | exact Hp].
Qed.

End Pipeline.

(** ** Scraping the title *)

Lemma scrape_title_quiet (html : string) :
  runs (snd (scrape_title html)) = []
  /\ fetches (snd (scrape_title html)) = []
  /\ spawns (snd (scrape_title html)) = [].
Proof. unfold scrape_title. split_cases; repeat split. Qed.

Lemma extract_effects (w : World) (spotify_url : string) :
  exists e,
    snd (extract_spotify_track_name w spotify_url)
    = EvLog INFO MFetching :: EvUrlopen spotify_url 10 :: e
    /\ runs e = [] /\ fetches e = [] /\ spawns e = [].
Proof.
  unfold extract_spotify_track_name.
  destruct (w_urlopen w spotify_url) as [html |].
  - pose proof (scrape_title_quiet html) as Hq.
    destruct (scrape_title html) as [t e]. simpl in *. exists e. split; [reflexivity | exact Hq].
  - eexists. repeat split.
Qed.

(** ** The fallback *)

Section Fallback.

Variable w : World.
Variables spotify_url output_dir : string.
Variable timeout : Z.

Lemma conclude_rate_limited (lines : list string) (returncode : Z) :
  conclude w spotify_url output_dir true lines returncode
  = {| ret := match fallback_query w spotify_url with
              | Some name => ret (download_song_with_metadata w name output_dir)
              | None => Returns (PyBool false)
              end;
       effects := EvLog INFO MFallingBack
                    :: snd (extract_spotify_track_name w spotify_url)
                    ++ match fallback_query w spotify_url with
                       | Some name => effects (download_song_with_metadata w name output_dir)
                       | None => [EvLog ERROR MNoTrackName]
                       end |}.
Proof.
  unfold conclude, fallback_query.
  destruct (extract_spotify_track_name w spotify_url) as [[name |] e]; simpl;
    [destruct (truthy name) |]; reflexivity.
Qed.

(** The run that is throttled. *)
Lemma url_path_rate_limited (pre post : list Tick) (t : Tick) (line : string) :
  w_spawn_ok w = true ->
  w_ticks w = pre ++ t :: post ->
  Forall (goes_on w timeout) pre ->
  now t - w_start w <= timeout ->
  reads_line t line ->
  signals_rate_limit line ->
  download_from_spotify_url w spotify_url output_dir timeout
  = {| s_ret := match fallback_query w spotify_url with
                | Some name => ret (download_song_with_metadata w name output_dir)
                | None => Returns (PyBool false)
                end;
       s_effects :=
         prologue w spotify_url output_dir ++ turns_trace pre
           ++ [EvReadline; EvLog INFO (MBackendLine line); EvLog INFO MRateLimited;
               EvKill; EvReap; EvLog INFO MFallingBack]
           ++ snd (extract_spotify_track_name w spotify_url)
           ++ match fallback_query w spotify_url with
              | Some name => effects (download_song_with_metadata w name output_dir)
              | None => [EvLog ERROR MNoTrackName]
              end;
       s_proc := Terminated (status_after_kill w) |}.
Proof.
  intros Hspawn Hticks Hpre Htime Hline Hsig.
  unfold download_from_spotify_url. rewrite Hspawn, Hticks.
  rewrite (supervise_goes_on w timeout pre (t :: post) Hpre).
  rewrite (supervise_rate_limit_line w timeout t post line Htime Hline Hsig).
  cbn [negb lp_exit lp_lines lp_evs]. rewrite conclude_rate_limited.
  cbn [ret effects]. f_equal.
  unfold prologue. simpl. do 4 f_equal. rewrite <- !app_assoc. reflexivity.
Qed.

End Fallback.

(** C4.  When the run of the primary backend is throttled, the page of the
    service URL is fetched once, with a timeout of 10 seconds, and nothing
    else is fetched before the fallback.  If a non-empty title comes out of
    it, the search backend's pipeline is run once with that title as its
    query: what it returns is what the function returns, its commands are
    the only ones run (the search for the title, then at most one
    download) and no second process is spawned.  If no title comes out of
    it, the function returns [False] and runs no command. *)
Theorem rate_limited_falls_back_once
        (w : World) (spotify_url output_dir : string) (timeout : Z)
        (pre post : list Tick) (t : Tick) (line : string) :
  w_spawn_ok w = true ->
  w_ticks w = pre ++ t :: post ->
  Forall (goes_on w timeout) pre ->
  now t - w_start w <= timeout ->
  reads_line t line ->
  signals_rate_limit line ->
  let r := download_from_spotify_url w spotify_url output_dir timeout in
  spawns (s_effects r) = [spotdl_cmd w spotify_url output_dir]
  /\ (exists before e,
         fetches before = [] /\ runs before = [] /\ fetches e = [] /\ runs e = []
         /\ s_effects r
            = before ++ EvLog INFO MFallingBack :: EvLog INFO MFetching
                :: EvUrlopen spotify_url 10 :: e
                ++ match fallback_query w spotify_url with
                   | Some name => effects (download_song_with_metadata w name output_dir)
                   | None => [EvLog ERROR MNoTrackName]
                   end)
  /\ match fst (extract_spotify_track_name w spotify_url) with
     | Some (String c name') =>
         let name := String c name' in
         s_ret r = ret (download_song_with_metadata w name output_dir)
         /\ (runs (s_effects r) = [info_cmd w name]
             \/ exists url path, runs (s_effects r) = [info_cmd w name; download_cmd w url path])
     | _ => s_ret r = Returns (PyBool false) /\ runs (s_effects r) = []
     end.
Proof.
  intros Hspawn Hticks Hpre Htime Hline Hsig r. subst r.
  rewrite (url_path_rate_limited w spotify_url output_dir timeout pre post t line
                                 Hspawn Hticks Hpre Htime Hline Hsig).
  cbn [s_ret s_effects].
  destruct (turns_trace_quiet pre) as [Hruns [Hfetches [Hspawns _]]].
  destruct (extract_effects w spotify_url) as [e [He [Hre [Hfe Hse]]]].
  assert (Hfall_spawns :
            spawns match fallback_query w spotify_url with
                   | Some name => effects (download_song_with_metadata w name output_dir)
                   | None => [EvLog ERROR MNoTrackName]
                   end = []).
  { destruct (fallback_query w spotify_url); [apply pipeline_spawns | reflexivity]. }
  split; [| split].
  - rewrite !spawns_app, Hspawns, Hfall_spawns, He. simpl. rewrite Hse. reflexivity.
  - exists (prologue w spotify_url output_dir ++ turns_trace pre
            ++ [EvReadline; EvLog INFO (MBackendLine line); EvLog INFO MRateLimited;
                EvKill; EvReap]), e.
    rewrite !fetches_app, !runs_app, Hruns, Hfetches, He.
    repeat split; auto.
    rewrite <- !app_assoc. reflexivity.
  - assert (Hbefore :
              forall tail,
                runs (prologue w spotify_url output_dir ++ turns_trace pre
                        ++ [EvReadline; EvLog INFO (MBackendLine line);
                            EvLog INFO MRateLimited; EvKill; EvReap;
                            EvLog INFO MFallingBack]
                        ++ snd (extract_spotify_track_name w spotify_url) ++ tail)
                = runs tail).
    { intros tail. rewrite !runs_app, Hruns, He. simpl. rewrite Hre. reflexivity. }
    unfold fallback_query.
    destruct (fst (extract_spotify_track_name w spotify_url)) as [[| c name'] |];
      cbn [truthy]; rewrite Hbefore; try (split; reflexivity).
    split; [reflexivity |].
    destruct (pipeline_runs w (String c name') output_dir)
      as [H1 | [out [err [files [info [url [_ [_ [_ H2]]]]]]]]]; [left; exact H1 |].
    right. eexists _, _. exact H2.
Qed.

Lemma throttled_pre_goes_on :
  Forall (goes_on throttled_world 120)
         [line_tick 1 "Processing query"; line_tick 2 "Found 1 song"].
Proof.
  apply Forall_cons; [| apply Forall_cons; [| apply Forall_nil]];
    apply line_tick_goes_on; simpl; try lia; reflexivity.
Qed.

Lemma throttled_line :
  reads_line (line_tick 3 "Your application has reached a rate/request LIMIT")
             "Your application has reached a rate/request LIMIT"
  /\ signals_rate_limit "Your application has reached a rate/request LIMIT".
Proof.
  split.
  - eexists. repeat split.
  - apply is_rate_limit_iff. reflexivity.
Qed.

Lemma rate_limited_falls_back_once_witness :
  fst (extract_spotify_track_name throttled_world track_url) = Some "Shape of You"%string
  /\ s_ret (download_from_spotify_url throttled_world track_url "downloads" 120)
     = ret (download_song_with_metadata throttled_world "Shape of You" "downloads")
  /\ spawns (s_effects (download_from_spotify_url throttled_world track_url "downloads" 120))
     = [spotdl_cmd throttled_world track_url "downloads"].
Proof.
  destruct (rate_limited_falls_back_once
              throttled_world track_url "downloads" 120
              [line_tick 1 "Processing query"; line_tick 2 "Found 1 song"] []
              (line_tick 3 "Your application has reached a rate/request LIMIT")
              "Your application has reached a rate/request LIMIT")
    as [Hspawns [_ Hfall]].
  - reflexivity.
  - reflexivity.
  - exact throttled_pre_goes_on.
  - simpl. lia.
  - exact (proj1 throttled_line).
  - exact (proj2 throttled_line).
  - split; [reflexivity |]. split; [exact (proj1 Hfall) | exact Hspawns].
Defined.

(** ** The shape of the result *)

(** C10.  [download_from_spotify_url] has no single shape of result.  When
    the loop is left without the rate-limit signal the result is a boolean:
    [True] exactly when the code of the process is 0, hence [False] for a
    process killed alive at the deadline, and [False] when the read or the
    spawn raised.  When the signal was seen and a title was scraped, the
    result is the one of the metadata pipeline, which is [None] or a
    metadata dictionary and never a boolean.  Each of the three shapes is
    the result in some world. *)
Theorem result_shape_depends_on_path
        (w : World) (spotify_url output_dir : string) (timeout : Z) :
  let r := download_from_spotify_url w spotify_url output_dir timeout in
  (w_spawn_ok w = false -> s_ret r = Returns (PyBool false))
  /\ (w_spawn_ok w = true ->
      match lp_exit (supervise w timeout (w_ticks w)) with
      | XExited code => s_ret r = Returns (PyBool (code =? 0))
      | XTimeout _ =>
          s_ret r = Returns (PyBool (status_after_kill w =? 0))
          /\ (w_exited_at_kill w = None -> w_kill_status w <> 0 ->
              s_ret r = Returns (PyBool false))
      | XRaised => s_ret r = Returns (PyBool false)
      | XRateLimited =>
          match fallback_query w spotify_url with
          | Some name =>
              s_ret r = ret (download_song_with_metadata w name output_dir)
              /\ forall v, s_ret r = Returns v ->
                           v = PyNone \/ exists m path, v = PyDict m /\ file_path m = Some path
          | None => s_ret r = Returns (PyBool false)
          end
      | XBlocked => s_ret r = NeverReturns
      | XUnobserved => s_ret r = Unobserved
      end)
  /\ s_ret (download_from_spotify_url succeeding_world track_url "downloads" 120)
     = Returns (PyBool true)
  /\ s_ret (download_from_spotify_url throttled_no_result_world track_url "downloads" 120)
     = Returns PyNone
  /\ exists m,
      s_ret (download_from_spotify_url throttled_world track_url "downloads" 120)
      = Returns (PyDict m).
Proof.
  intros r. subst r. unfold download_from_spotify_url.
  split; [intros ->; reflexivity |].
  split; [| split; [reflexivity | split; [reflexivity | eexists; reflexivity]]].
  intros ->. cbn [negb].
  destruct (lp_exit (supervise w timeout (w_ticks w))) as [elapsed | code | | | |];
    cbn [s_ret]; try reflexivity.
  - unfold conclude. cbn [ret].
    assert (H : forall e1 e2,
               ret (if status_after_kill w =? 0
                    then returns (PyBool true) e1 else returns (PyBool false) e2)
               = Returns (PyBool (status_after_kill w =? 0)))
      by (intros; destruct (status_after_kill w =? 0); reflexivity).
    rewrite H. split; [reflexivity |].
    intros Halive Hkill. f_equal. f_equal. apply Z.eqb_neq.
    unfold status_after_kill. rewrite Halive. exact Hkill.
  - unfold conclude. cbn [ret]. destruct (code =? 0); reflexivity.
  - rewrite conclude_rate_limited. cbn [ret].
    destruct (fallback_query w spotify_url) as [name |]; [| reflexivity].
    split; [reflexivity |].
    intros v Hv. destruct (pipeline_value w name output_dir v Hv)
      as [-> | [m [info [-> Hpath]]]]; [left; reflexivity |].
    right. eexists _, _. split; [reflexivity | exact Hpath].
Qed.

Lemma result_shape_depends_on_path_witness :
  w_spawn_ok succeeding_world = true
  /\ lp_exit (supervise succeeding_world 120 (w_ticks succeeding_world)) = XExited 0
  /\ s_ret (download_from_spotify_url succeeding_world track_url "downloads" 120)
     = Returns (PyBool (0 =? 0)).
Proof.
  split; [reflexivity |]. split; [reflexivity |].
  exact (proj1 (proj2 (result_shape_depends_on_path
                         succeeding_world track_url "downloads" 120))
               eq_refl).
Defined.

(** ** The direct path of main *)

Lemma download_song_runs (w : World) (query output_dir : string) :
  runs (effects (download_song w query output_dir))
  = [download_song_cmd w query output_dir].
Proof.
  unfold download_song.
  destruct (w_run w (download_song_cmd w query output_dir)) as [rc out err files | |];
    [destruct (rc =? 0) | |]; reflexivity.
Qed.

Lemma then_blank_runs (o : Outcome) (evs : list Event) :
  runs (then_blank o evs) = runs evs.
Proof.
  destruct o; simpl; try reflexivity. rewrite runs_app. simpl. apply app_nil_r.
Qed.

(** Against C5 as stated.  A free-text request of main issues the audio
    download at once: the only command run is the download of the first
    search result, to the backend's own template of file names, and no
    metadata-only call comes before it. *)
Lemma direct_path_skips_metadata :
  runs (snd (main_turn searching_world "Imagine Dragons Believer"))
  = [download_song_cmd searching_world "Imagine Dragons Believer" "downloads"]
  /\ has_arg "--extract-audio"
             (download_song_cmd searching_world "Imagine Dragons Believer" "downloads")
     = true
  /\ forallb (fun cmd => negb (has_arg "--dump-json" cmd))
             (runs (snd (main_turn searching_world "Imagine Dragons Believer")))
     = true
  /\ has_arg "--output"
             (download_song_cmd searching_world "Imagine Dragons Believer" "downloads")
     = true
  /\ has_arg "downloads/%(artist)s - %(title)s.%(ext)s"
             (download_song_cmd searching_world "Imagine Dragons Believer" "downloads")
     = true.
Proof. repeat split; reflexivity. Qed.

(** C5, as the code has it.  A free-text request of main goes to
    [download_song], which runs one command, the audio download of the
    first search result with the backend's own output template, and no
    metadata-only call.  The order "metadata first" is that of
    [download_song_with_metadata], the pipeline of the fallback: its first
    command is the metadata-only search and the download, when there is
    one, is the second and last command, for the address of the record
    found and the path [output_dir/<sanitized "artist - title">.mp3]. *)
Theorem metadata_first_only_in_pipeline (w : World) (typed output_dir : string) :
  (free_text (strip typed) ->
   fst (main_turn w typed) = Handled (ret (download_song w (strip typed) "downloads"))
   /\ runs (snd (main_turn w typed))
      = [get_yt_dlp_cmd w
           ++ [("ytsearch1:" ++ strip typed)%string; "--extract-audio";
               "--audio-format"; "mp3"; "--audio-quality"; "0";
               "--embed-thumbnail"; "--embed-metadata";
               "--output"; path_join "downloads" "%(artist)s - %(title)s.%(ext)s";
               "--no-playlist"; "--progress"]%string])
  /\ (forall query,
         runs (effects (download_song_with_metadata w query output_dir))
         = [get_yt_dlp_cmd w
              ++ [("ytsearch1:" ++ query)%string; "--dump-json"; "--no-download"]%string]
         \/ exists out err files info url,
             w_run w (info_cmd w query) = RunDone 0 out err files
             /\ w_json_loads w out = ParsedDict info
             /\ i_webpage_url info = Some url
             /\ runs (effects (download_song_with_metadata w query output_dir))
                = [get_yt_dlp_cmd w
                     ++ [("ytsearch1:" ++ query)%string; "--dump-json"; "--no-download"]%string;
                   download_cmd w url
                     (path_join output_dir
                        (sanitize (artist_of info ++ " - " ++ get (i_title info) "Unknown")
                           ++ ".mp3")%string)]).
Proof.
  split.
  - intros [Hquit [Htruthy Hurl]]. unfold main_turn.
    rewrite Hquit, Htruthy, Hurl. cbn [negb fst snd].
    split; [reflexivity |].
    rewrite then_blank_runs. apply download_song_runs.
  - intros query. exact (pipeline_runs w query output_dir).
Qed.

Lemma metadata_first_only_in_pipeline_witness :
  free_text (strip "  Imagine Dragons Believer ")
  /\ runs (snd (main_turn searching_world "  Imagine Dragons Believer "))
     = [["python"; "-m"; "yt_dlp"; "ytsearch1:Imagine Dragons Believer"; "--extract-audio";
         "--audio-format"; "mp3"; "--audio-quality"; "0";
         "--embed-thumbnail"; "--embed-metadata";
         "--output"; "downloads/%(artist)s - %(title)s.%(ext)s";
         "--no-playlist"; "--progress"]%string].
Proof.
  split; [repeat split |].
  exact (proj2 (proj1 (metadata_first_only_in_pipeline
                         searching_world "  Imagine Dragons Believer " "downloads")
                      (conj eq_refl (conj eq_refl eq_refl)))).
Defined.

(** ** Success and the file on the disk *)

(** The pipeline does not look at the code of the download command: once
    the record is parsed and has an address, whatever the command's code
    and whatever it wrote, the rest of the pipeline is the same. *)
Lemma download_code_is_ignored
      (w : World) (info : Info) (output_dir url : string)
      (rc : Z) (out err : string) (files : list string) :
  i_webpage_url info = Some url ->
  w_run w (download_cmd w url (output_path_of (build_metadata info) output_dir))
  = RunDone rc out err files ->
  ret (download_resolved w info output_dir)
  = ret (finish_download w (build_metadata info) output_dir).
Proof.
  intros Hurl Hrun. unfold download_resolved. rewrite Hurl, Hrun. reflexivity.
Qed.

(** C1.  The metadata pipeline reports success without an audio file: in
    the world where the search finds the track and the download command
    exits with code 1 and writes nothing, [download_song_with_metadata]
    returns the metadata with [file_path] set to a path that is not on the
    disk, and prints that it downloaded it; the same happens when the
    pipeline is the fallback of a throttled run. *)
Theorem success_reported_without_audio_file :
  let r := download_song_with_metadata lost_download_world
                                       "Imagine Dragons Believer" "downloads" in
  let path := "downloads/Imagine Dragons - Believer.mp3"%string in
  w_run lost_download_world
        (download_cmd lost_download_world "https://www.youtube.com/watch?v=7wtfhZwyrcc" path)
  = RunDone 1 EmptyString "ERROR" []
  /\ (exists m, ret r = Returns (PyDict m) /\ file_path m = Some path)
  /\ In (EvPrint (MDownloaded path)) (effects r)
  /\ on_disk path (disk_after [] (effects r)) = false
  /\ (exists m,
         s_ret (download_from_spotify_url throttled_lost_download_world
                                          track_url "downloads" 120)
         = Returns (PyDict m)
         /\ file_path m = Some path)
  /\ on_disk path
             (disk_after [] (s_effects (download_from_spotify_url
                                          throttled_lost_download_world
                                          track_url "downloads" 120)))
     = false.
Proof.
  cbv zeta. split; [reflexivity |].
  split; [eexists; split; reflexivity |].
  split; [vm_compute; auto 20 |].
  split; [reflexivity |].
  split; [eexists; split; reflexivity | reflexivity].
Qed.

(** ** The process on the ways out *)

(** On the ways out with a value other than the handler of exceptions, the
    process is known to have ended: it was seen to exit, or it was killed,
    and line 150 collected its code. *)
Lemma process_ended_unless_raised
      (w : World) (spotify_url output_dir : string) (timeout : Z) (v : PyValue) :
  let r := download_from_spotify_url w spotify_url output_dir timeout in
  w_spawn_ok w = true ->
  s_ret r = Returns v ->
  lp_exit (supervise w timeout (w_ticks w)) <> XRaised ->
  exists code, s_proc r = Terminated code /\ In EvReap (s_effects r).
Proof.
  intros r Hspawn Hret Hexit. subst r. revert Hret.
  unfold download_from_spotify_url. rewrite Hspawn. cbn [negb].
  destruct (lp_exit (supervise w timeout (w_ticks w)));
    cbn [s_ret s_proc s_effects]; try discriminate; try congruence;
    intros _; eexists; (split; [reflexivity |]);
    apply in_or_app; right; left; reflexivity.
Qed.

(** The run whose read raises: the handler logs and returns, and nothing
    is done about the process. *)
Lemma url_path_raise
      (w : World) (spotify_url output_dir : string) (timeout : Z)
      (pre post : list Tick) (t : Tick) :
  w_spawn_ok w = true ->
  w_ticks w = pre ++ t :: post ->
  Forall (goes_on w timeout) pre ->
  now t - w_start w <= timeout ->
  rd t = RdRaises ->
  download_from_spotify_url w spotify_url output_dir timeout
  = {| s_ret := Returns (PyBool false);
       s_effects := prologue w spotify_url output_dir ++ turns_trace pre
                      ++ EvReadline :: on_exception w;
       s_proc := Alive |}.
Proof.
  intros Hspawn Hticks Hpre Htime Hrd.
  unfold download_from_spotify_url. rewrite Hspawn, Hticks.
  rewrite (supervise_goes_on w timeout pre (t :: post) Hpre).
  rewrite (supervise_raise w timeout t post Htime Hrd).
  cbn [negb lp_exit lp_lines lp_evs leave]. f_equal.
  unfold prologue. simpl. do 4 f_equal. rewrite <- app_assoc. reflexivity.
Qed.

(** C2.  The way out through the handler of exceptions leaves the process
    as it is: in the world where the second read of the backend's output
    raises, [download_from_spotify_url] returns [False] after spawning the
    backend, and neither kills it nor waits for it. *)
Theorem read_error_leaves_process_alive :
  let r := download_from_spotify_url interrupted_world track_url "downloads" 120 in
  s_ret r = Returns (PyBool false)
  /\ spawns (s_effects r) = [spotdl_cmd interrupted_world track_url "downloads"]
  /\ s_proc r = Alive
  /\ kills (s_effects r) = 0%nat
  /\ ~ In EvReap (s_effects r)
  /\ s_effects r
     = prologue interrupted_world track_url "downloads"
         ++ [EvReadline; EvLog INFO (MBackendLine "Processing query"); EvReadline;
             EvLog ERROR (MException 2); EvLog ERROR MExceptionInfo; EvTraceback].
Proof.
  cbv zeta.
  rewrite (url_path_raise interrupted_world track_url "downloads" 120
                          [line_tick 1 "Processing query"] [] (raise_tick 2));
    try reflexivity.
  - cbn [s_ret s_effects s_proc]. repeat split.
    intros Hin. vm_compute in Hin.
    repeat (destruct Hin as [Hin | Hin]; [discriminate |]). exact Hin.
  - apply Forall_cons; [| apply Forall_nil].
    apply line_tick_goes_on; simpl; try lia; reflexivity.
  - simpl. lia.
Qed.

(** ** Time *)

Lemma reads_cons_readline (evs : list Event) : reads (EvReadline :: evs) = S (reads evs).
Proof. reflexivity. Qed.

Lemma reads_cons_log (l : Level) (m : Msg) (evs : list Event) :
  reads (EvLog l m :: evs) = reads evs.
Proof. reflexivity. Qed.

Lemma reads_cons_poll (evs : list Event) : reads (EvPoll :: evs) = reads evs.
Proof. reflexivity. Qed.






(** * Further properties of the module *)

(** ** File names and paths *)

Lemma underscore_is_legal : is_illegal "_" = false.
Proof. reflexivity. Qed.

Lemma sanitized_char_is_legal (c : ascii) :
  is_illegal (if is_illegal c then "_"%char else c) = false.
Proof. destruct (is_illegal c) eqn:H; [reflexivity | exact H]. Qed.

(** X1.  The sanitized text holds none of the characters of the class;
    sanitizing it again changes nothing, and a text without such a
    character is left as it is. *)
Theorem sanitize_output_is_legal (s : string) :
  Forall (fun c => is_illegal c = false) (chars (sanitize s))
  /\ sanitize (sanitize s) = sanitize s
  /\ (Forall (fun c => is_illegal c = false) (chars s) -> sanitize s = s).
Proof.
  unfold chars. induction s as [| c s [IH1 [IH2 IH3]]]; simpl.
  - repeat split; constructor.
  - split; [| split].
    + constructor; [apply sanitized_char_is_legal | exact IH1].
    + rewrite IH2, sanitized_char_is_legal. reflexivity.
    + intros H. inversion H as [| c' l Hc Hs]; subst.
      rewrite Hc, (IH3 Hs). reflexivity.
Qed.

Lemma sanitize_output_is_legal_witness :
  Forall (fun c => is_illegal c = false) (chars "Imagine Dragons - Believer")
  /\ sanitize "Imagine Dragons - Believer" = "Imagine Dragons - Believer"%string.
Proof.
  assert (H : Forall (fun c => is_illegal c = false) (chars "Imagine Dragons - Believer"))
    by (repeat constructor).
  split; [exact H |].
  exact (proj2 (proj2 (sanitize_output_is_legal "Imagine Dragons - Believer")) H).
Defined.

Lemma legal_char_is_no_slash (c : ascii) (s : string) :
  is_illegal c = false -> String.prefix "/" (String c s) = false.
Proof.
  intros Hlegal. destruct (String.prefix "/" (String c s)) eqn:H; [| reflexivity].
  apply prefix_iff in H. destruct H as [b Hb]. simpl in Hb.
  injection Hb as -> _. discriminate Hlegal.
Qed.

Lemma sanitize_has_no_slash (s : string) : contains "/" (sanitize s) = false.
Proof.
  induction s as [| c s IH]; [reflexivity |].
  simpl sanitize. cbn [contains]. rewrite IH, orb_false_r.
  pose proof (sanitized_char_is_legal c) as Hlegal.
  apply legal_char_is_no_slash, Hlegal.
Qed.

Lemma sanitize_not_absolute (s ext : string) :
  String.prefix "/" ext = false ->
  String.prefix "/" (sanitize s ++ ext) = false.
Proof.
  intros Hext. destruct s as [| c s]; [exact Hext |].
  pose proof (sanitized_char_is_legal c) as Hlegal.
  simpl sanitize. apply legal_char_is_no_slash, Hlegal.
Qed.

(** X2.  Whatever the artist and the title hold, the audio file and the
    cover go under the output directory: both paths are the directory, a
    separator when the directory needs one, and the same base name, which
    has no slash, with the extensions .mp3 and .jpg. *)
Theorem destination_under_output_dir (m : Metadata) (output_dir : string) :
  let sep := if negb (truthy output_dir) || ends_with "/" output_dir
             then EmptyString else "/"%string in
  output_path_of m output_dir = (output_dir ++ sep ++ safe_filename m ++ ".mp3")%string
  /\ cover_path_of m output_dir = (output_dir ++ sep ++ safe_filename m ++ ".jpg")%string
  /\ contains "/" (safe_filename m) = false.
Proof.
  unfold output_path_of, cover_path_of, path_join, safe_filename.
  rewrite !sanitize_not_absolute by reflexivity.
  destruct (negb (truthy output_dir) || ends_with "/" output_dir);
    repeat split; auto using sanitize_has_no_slash.
Qed.

(** ** Invariants of the supervision *)

Lemma kills_app (a b : list Event) : (kills (a ++ b) = kills a + kills b)%nat.
Proof. unfold kills. rewrite filter_app, length_app. reflexivity. Qed.

Lemma logged_lines_app (a b : list Event) :
  logged_lines (a ++ b) = logged_lines a ++ logged_lines b.
Proof. apply flat_map_app. Qed.

(** The loop kills the process once when it leaves on the deadline or on
    the signal, and not at all otherwise. *)
Lemma supervise_kills (w : World) (timeout : Z) (ticks : list Tick) :
  kills (lp_evs (supervise w timeout ticks))
  = match lp_exit (supervise w timeout ticks) with
    | XTimeout _ | XRateLimited => 1%nat
    | _ => 0%nat
    end.
Proof.
  induction ticks as [| t ticks IH]; [reflexivity |].
  cbn [supervise].
  destruct (now t - w_start w >? timeout); [reflexivity |].
  destruct (rd t) as [raw | |]; try reflexivity.
  destruct (truthy raw).
  - destruct (is_rate_limit (strip raw)); [reflexivity | exact IH].
  - destruct (pl t); [reflexivity | exact IH].
Qed.

Lemma scrape_title_kills (html : string) : kills (snd (scrape_title html)) = 0%nat.
Proof. unfold scrape_title. split_cases; reflexivity. Qed.

Lemma extract_kills (w : World) (spotify_url : string) :
  kills (snd (extract_spotify_track_name w spotify_url)) = 0%nat.
Proof.
  unfold extract_spotify_track_name.
  destruct (w_urlopen w spotify_url) as [html |]; [| reflexivity].
  pose proof (scrape_title_kills html) as Hk.
  destruct (scrape_title html) as [t e]. simpl in *. exact Hk.
Qed.

Lemma pipeline_kills (w : World) (query output_dir : string) :
  kills (effects (download_song_with_metadata w query output_dir)) = 0%nat.
Proof.
  unfold download_song_with_metadata, download_resolved, finish_download.
  split_cases; reflexivity.
Qed.

Lemma conclude_kills (w : World) (spotify_url output_dir : string)
      (rate_limited : bool) (lines : list string) (returncode : Z) :
  kills (effects (conclude w spotify_url output_dir rate_limited lines returncode))
  = 0%nat.
Proof.
  destruct rate_limited.
  - rewrite conclude_rate_limited. cbn [effects].
    change (EvLog INFO MFallingBack :: ?l) with ([EvLog INFO MFallingBack] ++ l).
    rewrite !kills_app, extract_kills.
    destruct (fallback_query w spotify_url); [rewrite pipeline_kills |]; reflexivity.
  - unfold conclude. destruct (returncode =? 0); reflexivity.
Qed.

(** X3.  [download_from_spotify_url] kills the backend at most once: once
    when the loop is left on the deadline or on the rate-limit signal, and
    never when the process ended by itself, when a read raised or when the
    process could not be spawned; nothing that comes after the loop kills
    anything. *)
Theorem backend_killed_only_on_deadline_or_signal
        (w : World) (spotify_url output_dir : string) (timeout : Z) :
  kills (s_effects (download_from_spotify_url w spotify_url output_dir timeout))
  = if w_spawn_ok w then
      match lp_exit (supervise w timeout (w_ticks w)) with
      | XTimeout _ | XRateLimited => 1%nat
      | _ => 0%nat
      end
    else 0%nat.
Proof.
  unfold download_from_spotify_url.
  destruct (w_spawn_ok w); [| reflexivity]. cbn [negb].
  pose proof (supervise_kills w timeout (w_ticks w)) as Hk.
  destruct (lp_exit (supervise w timeout (w_ticks w))); cbn [s_effects];
    rewrite ?kills_app;
    repeat match goal with
           | |- context [kills (?e :: ?l)] =>
               lazymatch l with
               | [] => fail
               | _ => change (e :: l) with ([e] ++ l); rewrite kills_app
               end
           end;
    rewrite ?conclude_kills, ?Hk; reflexivity.
Qed.

(** X4.  Every line that the loop captures is logged, and nothing else is
    logged as a line of the backend: the backend lines in the log of the
    loop are the captured lines, in order; each of them took a read. *)
Theorem captured_lines_are_logged (w : World) (timeout : Z) (ticks : list Tick) :
  logged_lines (lp_evs (supervise w timeout ticks)) = lp_lines (supervise w timeout ticks)
  /\ (List.length (lp_lines (supervise w timeout ticks))
      <= reads (lp_evs (supervise w timeout ticks)))%nat.
Proof.
  induction ticks as [| t ticks [IH1 IH2]]; [split; [reflexivity | simpl; lia] |].
  cbn [supervise].
  destruct (now t - w_start w >? timeout);
    [split; [reflexivity | unfold reads; simpl; lia] |].
  destruct (rd t) as [raw | |];
    try (split; [reflexivity | unfold reads; simpl; lia]).
  destruct (truthy raw).
  - destruct (is_rate_limit (strip raw)); cbn [lp_lines lp_evs].
    + split; [reflexivity | unfold reads; simpl; lia].
    + split.
      * simpl. f_equal. exact IH1.
      * rewrite reads_cons_readline, reads_cons_log. simpl. lia.
  - destruct (pl t); cbn [lp_lines lp_evs leave].
    + split; [reflexivity | unfold reads; simpl; lia].
    + split; [exact IH1 |].
      rewrite reads_cons_readline, reads_cons_poll. lia.
Qed.

(** ** The other ways out of the URL path *)

Lemma turns_trace_logged (ticks : list Tick) :
  logged_lines (turns_trace ticks) = captured ticks.
Proof.
  induction ticks as [| t ticks IH]; [reflexivity |].
  unfold turns_trace, captured in *. simpl flat_map.
  rewrite logged_lines_app, IH.
  destruct (rd t) as [raw | |]; [destruct (truthy raw) |..]; reflexivity.
Qed.

(** X5.  When the backend ends by itself with code 0 within the budget,
    [download_from_spotify_url] returns [True]: its last effect is the
    message of success, the process is never killed, and no command is
    run and nothing is fetched. *)
Theorem natural_success_returns_true
        (w : World) (spotify_url output_dir : string) (timeout : Z)
        (pre post : list Tick) (t : Tick) :
  w_spawn_ok w = true ->
  w_ticks w = pre ++ t :: post ->
  Forall (goes_on w timeout) pre ->
  now t - w_start w <= timeout ->
  rd t = RdText EmptyString ->
  pl t = Some 0 ->
  let r := download_from_spotify_url w spotify_url output_dir timeout in
  s_ret r = Returns (PyBool true)
  /\ s_proc r = Terminated 0
  /\ (exists before, s_effects r = before ++ [EvLog INFO (MDownloadedTo output_dir)])
  /\ logged_lines (s_effects r) = captured pre
  /\ kills (s_effects r) = 0%nat
  /\ runs (s_effects r) = []
  /\ fetches (s_effects r) = [].
Proof.
  intros Hspawn Hticks Hpre Htime Hrd Hpl r. subst r.
  rewrite (url_path_exit w spotify_url output_dir timeout pre post t 0
                         Hspawn Hticks Hpre Htime Hrd Hpl).
  cbn [s_ret s_effects s_proc Z.eqb].
  destruct (turns_trace_quiet pre) as [Hruns [Hfetches [_ Hkills]]].
  split; [reflexivity |]. split; [reflexivity |]. split.
  { eexists. rewrite !app_assoc. reflexivity. }
  split.
  { rewrite !logged_lines_app, turns_trace_logged. simpl. apply app_nil_r. }
  split; [rewrite !kills_app, Hkills; reflexivity |].
  rewrite !runs_app, !fetches_app, Hruns, Hfetches. split; reflexivity.
Qed.

Lemma succeeding_pre_goes_on :
  Forall (goes_on succeeding_world 120)
         [line_tick 1 "Processing query"; line_tick 9 "Downloaded"].
Proof.
  apply Forall_cons; [| apply Forall_cons; [| apply Forall_nil]];
    apply line_tick_goes_on; simpl; try lia; reflexivity.
Qed.

Lemma natural_success_returns_true_witness :
  s_ret (download_from_spotify_url succeeding_world track_url "downloads" 120)
  = Returns (PyBool true)
  /\ logged_lines (s_effects (download_from_spotify_url succeeding_world track_url
                                                        "downloads" 120))
     = ["Processing query"; "Downloaded"]%string.
Proof.
  destruct (natural_success_returns_true
              succeeding_world track_url "downloads" 120
              [line_tick 1 "Processing query"; line_tick 9 "Downloaded"] []
              (exit_tick 10 0))
    as [Hret [_ [_ [Hlog _]]]].
  - reflexivity.
  - reflexivity.
  - exact succeeding_pre_goes_on.
  - simpl. lia.
  - reflexivity.
  - reflexivity.
  - split; [exact Hret | exact Hlog].
Defined.

(** X6.  The result after the deadline is decided by the code of the
    process, not by the timeout: when the process had already ended by
    itself with some code at the moment of the kill, the function logs the
    timeout, and then returns [True] if that code is 0 and [False]
    otherwise. *)
Theorem deadline_after_exit_reports_exit_code
        (w : World) (spotify_url output_dir : string) (timeout : Z)
        (pre post : list Tick) (t : Tick) (code : Z) :
  w_spawn_ok w = true ->
  w_ticks w = pre ++ t :: post ->
  Forall (goes_on w timeout) pre ->
  timeout < now t - w_start w ->
  w_exited_at_kill w = Some code ->
  let r := download_from_spotify_url w spotify_url output_dir timeout in
  s_ret r = Returns (PyBool (code =? 0))
  /\ s_proc r = Terminated code
  /\ In (EvLog ERROR (MTimeout (now t - w_start w))) (s_effects r)
  /\ In (EvLog INFO (MFinished (w_end w - w_start w) code)) (s_effects r)
  /\ kills (s_effects r) = 1%nat.
Proof.
  intros Hspawn Hticks Hpre Htime Hexited r. subst r.
  rewrite (url_path_timeout w spotify_url output_dir timeout pre post t
                            Hspawn Hticks Hpre Htime).
  assert (Hstatus : status_after_kill w = code)
    by (unfold status_after_kill; rewrite Hexited; reflexivity).
  rewrite Hstatus. cbn [s_ret s_effects s_proc].
  destruct (turns_trace_quiet pre) as [_ [_ [_ Hkills]]].
  split; [reflexivity |]. split; [reflexivity |]. split; [| split].
  - apply in_or_app. right. apply in_or_app. right. apply in_or_app. left.
    simpl. auto.
  - apply in_or_app. right. apply in_or_app. right. apply in_or_app. left.
    simpl. auto.
  - rewrite !kills_app, Hkills. destruct (code =? 0); reflexivity.
Qed.

Lemma deadline_after_exit_reports_exit_code_witness :
  120 < 121 - w_start raced_world
  /\ s_ret (download_from_spotify_url raced_world track_url "downloads" 120)
     = Returns (PyBool true)
  /\ In (EvLog ERROR (MTimeout 121))
        (s_effects (download_from_spotify_url raced_world track_url "downloads" 120)).
Proof.
  destruct (deadline_after_exit_reports_exit_code
              raced_world track_url "downloads" 120
              [line_tick 119 "Downloaded"] [] (line_tick 121 EmptyString) 0)
    as [Hret [_ [Hlog _]]].
  - reflexivity.
  - reflexivity.
  - apply Forall_cons; [| apply Forall_nil].
    apply line_tick_goes_on; simpl; try lia; reflexivity.
  - simpl. lia.
  - reflexivity.
  - split; [simpl; lia |]. split; [exact Hret | exact Hlog].
Defined.

(** ** The metadata pipeline, case by case *)

Section PipelineCases.

Variable w : World.
Variables query output_dir : string.

Lemma finish_download_fetches (m : Metadata) :
  fetches (effects (finish_download w m output_dir))
  = if truthy (thumbnail_url m) then [thumbnail_url m] else [].
Proof.
  unfold finish_download.
  destruct (truthy (thumbnail_url m)); [| reflexivity].
  destruct (w_urlretrieve w (thumbnail_url m) (cover_path_of m output_dir)); reflexivity.
Qed.

(** The pipeline once the metadata is resolved and the download command
    came back. *)
Lemma pipeline_resolved (info : Info) (url : string)
      (stdout stderr : string) (files : list string)
      (rc : Z) (out err : string) (written : list string) :
  w_run w (info_cmd w query) = RunDone 0 stdout stderr files ->
  w_json_loads w stdout = ParsedDict info ->
  i_webpage_url info = Some url ->
  w_run w (download_cmd w url (output_path_of (build_metadata info) output_dir))
  = RunDone rc out err written ->
  download_song_with_metadata w query output_dir
  = {| ret := ret (finish_download w (build_metadata info) output_dir);
       effects :=
         [EvMakedirs output_dir; EvPrint (MSearching query);
          EvRun (info_cmd w query) files;
          EvPrint (MFoundTrack (artist_of info) (get (i_title info) "Unknown"));
          EvPrint (MCover (select_thumbnail_url info));
          EvPrint (MUrl url);
          EvRun (download_cmd w url (output_path_of (build_metadata info) output_dir))
                written]
           ++ effects (finish_download w (build_metadata info) output_dir) |}.
Proof.
  intros Hinfo Hparse Hurl Hrun.
  unfold download_song_with_metadata. rewrite Hinfo. cbn [Z.eqb negb].
  rewrite Hparse. unfold download_resolved. rewrite Hurl, Hrun.
  cbn [ret effects]. simpl. rewrite Hurl. reflexivity.
Qed.

(** X7.  When the metadata-only call gives no usable record, the pipeline
    returns [None] and stops there: the search is the only command run,
    no download command is issued and nothing is fetched. *)
Theorem unusable_metadata_stops_pipeline :
  metadata_unusable w query ->
  let r := download_song_with_metadata w query output_dir in
  ret r = Returns PyNone
  /\ runs (effects r) = [info_cmd w query]
  /\ fetches (effects r) = [].
Proof.
  unfold metadata_unusable, download_song_with_metadata.
  destruct (w_run w (info_cmd w query)) as [rc out err files | |];
    [| intros _; repeat split | intros []].
  destruct (Z.eqb_spec rc 0) as [-> | Hrc]; [| intros _; repeat split].
  intros [Hrc | Hparse]; [congruence |]. cbn [negb].
  destruct (w_json_loads w out) as [info | |]; try (repeat split; fail).
  unfold download_resolved. rewrite Hparse. repeat split.
Qed.

End PipelineCases.

Lemma unusable_metadata_stops_pipeline_witness :
  metadata_unusable garbled_world "Imagine Dragons Believer"
  /\ ret (download_song_with_metadata garbled_world "Imagine Dragons Believer" "downloads")
     = Returns PyNone
  /\ runs (effects (download_song_with_metadata garbled_world "Imagine Dragons Believer"
                                                "downloads"))
     = [info_cmd garbled_world "Imagine Dragons Believer"].
Proof.
  assert (H : metadata_unusable garbled_world "Imagine Dragons Believer")
    by (right; exact I).
  destruct (unusable_metadata_stops_pipeline
              garbled_world "Imagine Dragons Believer" "downloads" H)
    as [Hret [Hruns _]].
  split; [exact H |]. split; [exact Hret | exact Hruns].
Defined.

(** ** The disk *)

Lemma on_disk_app (path : string) (a b : list string) :
  on_disk path (a ++ b) = on_disk path a || on_disk path b.
Proof. apply existsb_app. Qed.

Lemma disk_after_app (before : list string) (a b : list Event) :
  disk_after before (a ++ b) = disk_after before a ++ flat_map written_by b.
Proof. unfold disk_after. rewrite flat_map_app. apply app_assoc. Qed.

Lemma on_disk_in (path : string) (disk : list string) :
  on_disk path disk = true <-> In path disk.
Proof.
  unfold on_disk. rewrite existsb_exists. split.
  - intros [x [Hin Heq]]. apply String.eqb_eq in Heq. subst. exact Hin.
  - intros Hin. exists path. split; [exact Hin | apply String.eqb_refl].
Qed.

Section Cover.

Variable w : World.
Variables query output_dir : string.
Variable info : Info.
Variable url : string.

Let m := build_metadata info.
Let path := output_path_of m output_dir.
Let cover := cover_path_of m output_dir.
Let r := download_song_with_metadata w query output_dir.

(** X8.  The cover does not decide the result.  Once the metadata is
    resolved and the download command came back, the pipeline returns the
    metadata with the path of the audio file in each case: with the path
    of the cover, then on the disk, when the cover was saved; without it,
    after a message, when fetching the cover raised; and without any fetch
    when the record gives no thumbnail address. *)
Theorem cover_failure_is_not_fatal :
  metadata_resolved w query info url ->
  (exists rc out err written,
      w_run w (download_cmd w url path) = RunDone rc out err written) ->
  (truthy (thumbnail_url m) = true ->
   w_urlretrieve w (thumbnail_url m) cover = Saved ->
   exists m', ret r = Returns (PyDict m')
              /\ file_path m' = Some path
              /\ cover_path m' = Some cover
              /\ fetches (effects r) = [thumbnail_url m]
              /\ on_disk cover (disk_after [] (effects r)) = true)
  /\ (truthy (thumbnail_url m) = true ->
      w_urlretrieve w (thumbnail_url m) cover = RetrieveRaises ->
      exists m', ret r = Returns (PyDict m')
                 /\ file_path m' = Some path
                 /\ cover_path m' = None
                 /\ fetches (effects r) = [thumbnail_url m]
                 /\ In (EvPrint MCoverFailed) (effects r))
  /\ (truthy (thumbnail_url m) = false ->
      exists m', ret r = Returns (PyDict m')
                 /\ file_path m' = Some path
                 /\ cover_path m' = None
                 /\ fetches (effects r) = []).
Proof.
  intros [stdout [stderr [files [Hinfo [Hparse Hurl]]]]] [rc [out [err [written Hrun]]]].
  subst r. unfold path in Hrun.
  rewrite (pipeline_resolved w query output_dir info url stdout stderr files
                             rc out err written Hinfo Hparse Hurl Hrun).
  cbn [ret effects]. unfold finish_download. fold m. fold cover. fold path.
  split; [| split].
  - intros Htruthy Hsaved. rewrite Htruthy, Hsaved. eexists.
    split; [reflexivity |]. split; [reflexivity |]. split; [reflexivity |].
    split; [reflexivity |].
    apply on_disk_in. rewrite disk_after_app. apply in_or_app. right.
    simpl. left. reflexivity.
  - intros Htruthy Hraises. rewrite Htruthy, Hraises. eexists.
    split; [reflexivity |]. split; [reflexivity |]. split; [reflexivity |].
    split; [reflexivity | simpl; auto 20].
  - intros Hnone. rewrite Hnone. eexists.
    split; [reflexivity |]. split; [reflexivity |]. split; reflexivity.
Qed.

End Cover.

Lemma believer_resolved (run : list string -> RunResult) (w : World) :
  w_run w = yt_dlp 0 ["downloads/Imagine Dragons - Believer.mp3"%string] ->
  w_json_loads w = (fun _ => ParsedDict believer) ->
  w_executable w = "python"%string ->
  metadata_resolved w "Imagine Dragons Believer" believer
                    "https://www.youtube.com/watch?v=7wtfhZwyrcc".
Proof.
  intros Hrun Hparse Hexe. unfold metadata_resolved, info_cmd, get_yt_dlp_cmd.
  rewrite Hrun, Hparse, Hexe. eexists _, _, _. repeat split.
Qed.

Lemma cover_failure_is_not_fatal_witness :
  exists m',
    ret (download_song_with_metadata coverless_world "Imagine Dragons Believer" "downloads")
    = Returns (PyDict m')
    /\ file_path m' = Some "downloads/Imagine Dragons - Believer.mp3"%string
    /\ cover_path m' = None.
Proof.
  destruct (cover_failure_is_not_fatal
              coverless_world "Imagine Dragons Believer" "downloads" believer
              "https://www.youtube.com/watch?v=7wtfhZwyrcc")
    as [_ [Hraises _]].
  - apply (believer_resolved (w_run coverless_world)); reflexivity.
  - eexists _, _, _, _. reflexivity.
  - destruct (Hraises eq_refl eq_refl) as [m' [Hret [Hpath [Hcover _]]]].
    exists m'. split; [exact Hret |]. split; [exact Hpath | exact Hcover].
Defined.

Section PipelineResult.

Variable w : World.
Variables query output_dir : string.

(** What a dictionary that comes out of the pipeline tells. *)
Lemma pipeline_dictionary_inv (m' : Metadata) :
  ret (download_song_with_metadata w query output_dir) = Returns (PyDict m') ->
  exists info url,
    metadata_resolved w query info url
    /\ (exists rc out err written,
           w_run w (download_cmd w url (output_path_of (build_metadata info) output_dir))
           = RunDone rc out err written)
    /\ title m' = get (i_title info) "Unknown"
    /\ artist m' = artist_of info
    /\ album m' = get (i_album info) EmptyString
    /\ duration m' = get (i_duration info) 0
    /\ youtube_url m' = url
    /\ thumbnail_url m' = select_thumbnail_url info
    /\ thumbnails m' = i_thumbnails info
    /\ file_path m' = Some (output_path_of (build_metadata info) output_dir)
    /\ (cover_path m' = None
        \/ cover_path m' = Some (cover_path_of (build_metadata info) output_dir)).
Proof.
  unfold download_song_with_metadata.
  destruct (w_run w (info_cmd w query)) as [rc stdout stderr files | |] eqn:Hinfo;
    try discriminate.
  destruct (Z.eqb_spec rc 0) as [-> | Hrc]; [| discriminate]. cbn [negb].
  destruct (w_json_loads w stdout) as [info | |] eqn:Hparse; try discriminate.
  cbn [ret]. unfold download_resolved.
  destruct (i_webpage_url info) as [url |] eqn:Hurl; [| discriminate].
  destruct (w_run w (download_cmd w url (output_path_of (build_metadata info) output_dir)))
    as [rc' out err written | |] eqn:Hrun; try discriminate.
  cbn [ret]. intros Hret. exists info, url.
  split; [exists stdout, stderr, files; auto |].
  split; [eexists _, _, _, _; exact Hrun |].
  revert Hret. unfold finish_download.
  destruct (truthy (thumbnail_url (build_metadata info)));
    [destruct (w_urlretrieve w _ _) |]; cbn [ret returns never_returns];
    intros Hret; try discriminate; injection Hret as <-; simpl; rewrite ?Hurl;
    repeat split; auto.
Qed.

(** X9.  A dictionary comes out of the pipeline only after both commands:
    the metadata-only call exited with code 0 and printed a record with the
    address of the page, and the download command for that address came
    back.  The dictionary then has the title, the artist, the album and the
    duration of the record with their defaults, the address as
    [youtube_url], the selected thumbnail, the path of the audio file, and
    as [cover_path] nothing or the path of the cover. *)
Theorem dictionary_means_both_commands_ran (m' : Metadata) :
  ret (download_song_with_metadata w query output_dir) = Returns (PyDict m') ->
  exists info url,
    metadata_resolved w query info url
    /\ (exists rc out err written,
           w_run w (download_cmd w url (output_path_of (build_metadata info) output_dir))
           = RunDone rc out err written)
    /\ title m' = get (i_title info) "Unknown"
    /\ artist m' = artist_of info
    /\ album m' = get (i_album info) EmptyString
    /\ duration m' = get (i_duration info) 0
    /\ youtube_url m' = url
    /\ thumbnail_url m' = select_thumbnail_url info
    /\ thumbnails m' = i_thumbnails info
    /\ file_path m' = Some (output_path_of (build_metadata info) output_dir)
    /\ (cover_path m' = None
        \/ cover_path m' = Some (cover_path_of (build_metadata info) output_dir)).
Proof. apply pipeline_dictionary_inv. Qed.


End PipelineResult.

Lemma dictionary_means_both_commands_ran_witness :
  exists m',
    ret (download_song_with_metadata searching_world "Imagine Dragons Believer" "downloads")
    = Returns (PyDict m')
    /\ title m' = "Believer"%string
    /\ artist m' = "Imagine Dragons"%string
    /\ youtube_url m' = "https://www.youtube.com/watch?v=7wtfhZwyrcc"%string.
Proof.
  eexists. split; [reflexivity |].
  destruct (dictionary_means_both_commands_ran
              searching_world "Imagine Dragons Believer" "downloads" _ eq_refl)
    as [info [url [[stdout [stderr [files [_ [Hparse Hurl]]]]]
                     [_ [Htitle [Hartist [_ [_ [Hyt _]]]]]]]]].
  simpl in Hparse. injection Hparse as <-.
  simpl in Hurl. injection Hurl as <-.
  split; [exact Htitle |]. split; [exact Hartist | exact Hyt].
Defined.


(** ** The direct download *)

(** X11.  [download_song] reports the exit code of its one command: it
    returns [True] exactly when the command came back with code 0 and
    [False] when it came back with another code or when running it raised;
    it returns nothing else, spawns no supervised process and fetches
    nothing, and it returns whenever the command comes back. *)
Theorem download_song_reports_exit_code (w : World) (query output_dir : string) :
  let r := download_song w query output_dir in
  let cmd := download_song_cmd w query output_dir in
  (ret r = Returns (PyBool true)
   <-> exists out err files, w_run w cmd = RunDone 0 out err files)
  /\ (ret r = Returns (PyBool false)
      <-> w_run w cmd = RunRaises
          \/ exists rc out err files, rc <> 0 /\ w_run w cmd = RunDone rc out err files)
  /\ (ret r = NeverReturns <-> w_run w cmd = RunHangs)
  /\ (forall v, ret r = Returns v -> exists b, v = PyBool b)
  /\ spawns (effects r) = []
  /\ fetches (effects r) = []
  /\ (exists rest, effects r = EvMakedirs output_dir :: EvPrint (MSearching query) :: rest).
Proof.
  cbv zeta. unfold download_song.
  destruct (w_run w (download_song_cmd w query output_dir)) as [rc out err files | |].
  - destruct (Z.eqb_spec rc 0) as [-> | Hrc]; cbn [ret returns effects].
    + split; [split; [intros _; eauto | reflexivity] |].
      split; [split; [discriminate | intros [H | [rc [o [e [f [Hrc H]]]]]];
                                     [discriminate | congruence]] |].
      split; [split; discriminate |].
      split; [intros v H; injection H as <-; eauto |].
      repeat split. eexists. reflexivity.
    + split; [split; [discriminate | intros [o [e [f H]]]; congruence] |].
      split; [split; [intros _; right; eauto 10 | reflexivity] |].
      split; [split; discriminate |].
      split; [intros v H; injection H as <-; eauto |].
      repeat split. eexists. reflexivity.
  - cbn [ret returns effects].
    split; [split; [discriminate | intros [o [e [f H]]]; discriminate] |].
    split; [split; [intros _; left; reflexivity | reflexivity] |].
    split; [split; discriminate |].
    split; [intros v H; injection H as <-; eauto |].
    repeat split. eexists. reflexivity.
  - cbn [ret never_returns effects].
    split; [split; [discriminate | intros [o [e [f H]]]; discriminate] |].
    split; [split; [discriminate | intros [H | [rc [o [e [f [Hrc H]]]]]]; discriminate] |].
    split; [split; reflexivity |].
    split; [intros v H; discriminate |].
    repeat split. eexists. reflexivity.
Qed.

Lemma download_song_reports_exit_code_witness :
  (exists out err files,
      w_run searching_world
            (download_song_cmd searching_world "Imagine Dragons Believer" "downloads")
      = RunDone 0 out err files)
  /\ ret (download_song searching_world "Imagine Dragons Believer" "downloads")
     = Returns (PyBool true).
Proof.
  assert (H : exists out err files,
             w_run searching_world
                   (download_song_cmd searching_world "Imagine Dragons Believer" "downloads")
             = RunDone 0 out err files)
    by (eexists _, _, _; reflexivity).
  split; [exact H |].
  exact (proj2 (proj1 (download_song_reports_exit_code
                         searching_world "Imagine Dragons Believer" "downloads")) H).
Defined.

(** ** Scraping the title of the page *)

Lemma drop_prefix (pre s : string) :
  String.prefix pre s = true -> s = (pre ++ drop (String.length pre) s)%string.
Proof.
  revert s. induction pre as [| c pre IH]; intros s H; [reflexivity |].
  destruct s as [| d s]; [discriminate |].
  simpl in H. destruct (ascii_dec c d) as [-> | _]; [| discriminate].
  simpl. f_equal. apply IH, H.
Qed.

Lemma span_not_spec (stop : ascii) (s : string) :
  s = (fst (span_not stop s) ++ snd (span_not stop s))%string
  /\ Forall (fun c => c <> stop) (chars (fst (span_not stop s))).
Proof.
  unfold chars. induction s as [| c s [IH1 IH2]]; simpl.
  - split; [reflexivity | constructor].
  - destruct (Ascii.eqb_spec c stop) as [-> | Hne]; simpl.
    + split; [reflexivity | constructor].
    + destruct (span_not stop s) as [run rest]. simpl in *.
      split; [congruence | constructor; assumption].
Qed.

(** What the search finds is a non-empty text without the closing
    character that stands in the page between the opening and the closing
    marker. *)
Lemma search_group_sound (pre : string) (stop : ascii) (post s g : string) :
  search_group pre stop post s = Some g ->
  truthy g = true
  /\ Forall (fun c => c <> stop) (chars g)
  /\ exists a b, s = (a ++ pre ++ g ++ post ++ b)%string.
Proof.
  assert (Hhere :
            forall s,
              (if String.prefix pre s
               then let (run, rest) := span_not stop (drop (String.length pre) s) in
                    if truthy run && String.prefix post rest then Some run else None
               else None) = Some g ->
              truthy g = true
              /\ Forall (fun c => c <> stop) (chars g)
              /\ exists b, s = (pre ++ g ++ post ++ b)%string).
  { clear s. intros s H.
    destruct (String.prefix pre s) eqn:Hpre; [| discriminate].
    destruct (span_not_spec stop (drop (String.length pre) s)) as [Hsplit Hrun].
    destruct (span_not stop (drop (String.length pre) s)) as [run rest].
    simpl in Hsplit, Hrun.
    destruct (truthy run) eqn:Htruthy; [| discriminate].
    destruct (String.prefix post rest) eqn:Hpost; [| discriminate].
    simpl in H. injection H as <-.
    split; [exact Htruthy |]. split; [exact Hrun |].
    apply prefix_iff in Hpost. destruct Hpost as [b ->].
    exists b. rewrite (drop_prefix pre s Hpre) at 1. rewrite Hsplit. reflexivity. }
  induction s as [| c s IH]; cbn [search_group].
  - intros H.
    destruct (if String.prefix pre EmptyString
              then let (run, rest) := span_not stop (drop (String.length pre) EmptyString) in
                   if truthy run && String.prefix post rest then Some run else None
              else None) as [g' |] eqn:Heq; [| discriminate].
    injection H as ->. destruct (Hhere _ Heq) as [H1 [H2 [b Hb]]].
    split; [exact H1 |]. split; [exact H2 |]. exists EmptyString, b. exact Hb.
  - intros H.
    destruct (if String.prefix pre (String c s)
              then let (run, rest) := span_not stop (drop (String.length pre) (String c s)) in
                   if truthy run && String.prefix post rest then Some run else None
              else None) as [g' |] eqn:Heq.
    + injection H as ->. destruct (Hhere _ Heq) as [H1 [H2 [b Hb]]].
      split; [exact H1 |]. split; [exact H2 |]. exists EmptyString, b. exact Hb.
    + destruct (IH H) as [H1 [H2 [a [b Hab]]]].
      split; [exact H1 |]. split; [exact H2 |].
      exists (String c a), b. simpl. f_equal. exact Hab.
Qed.

Lemma search_group_mentions (pre : string) (stop : ascii) (post s g : string) :
  search_group pre stop post s = Some g -> mentions pre s.
Proof.
  intros H. destruct (search_group_sound pre stop post s g H) as [_ [_ [a [b Hab]]]].
  exists a, (g ++ post ++ b)%string. exact Hab.
Qed.

(** X12.  A title that [extract_spotify_track_name] returns comes from the
    page that was fetched: it is the non-empty text without double quote
    that stands between the og:title marker, or else the twitter:title
    marker, and the closing quote; or else it is the text between the
    title tags, without the characters " | Spotify" that a single pass
    removes and without the white space around. *)
Theorem scraped_title_comes_from_page (w : World) (spotify_url t : string) :
  fst (extract_spotify_track_name w spotify_url) = Some t ->
  exists html,
    w_urlopen w spotify_url = Some html
    /\ ((truthy t = true
         /\ Forall (fun c => c <> dquote) (chars t)
         /\ exists a b, html = (a ++ og_title_prefix ++ t ++ dq ++ b)%string)
        \/ (truthy t = true
            /\ Forall (fun c => c <> dquote) (chars t)
            /\ exists a b, html = (a ++ twitter_title_prefix ++ t ++ dq ++ b)%string)
        \/ (exists t0 a b,
               html = (a ++ "<title>" ++ t0 ++ "</title>" ++ b)%string
               /\ truthy t0 = true
               /\ Forall (fun c => c <> "<"%char) (chars t0)
               /\ t = strip (replace " | Spotify" EmptyString t0))).
Proof.
  unfold extract_spotify_track_name.
  destruct (w_urlopen w spotify_url) as [html |]; [| discriminate].
  unfold scrape_title.
  destruct (search_group og_title_prefix dquote dq html) as [g |] eqn:Hog.
  { simpl. intros H. injection H as <-. exists html. split; [reflexivity |].
    left. apply (search_group_sound _ _ _ _ _ Hog). }
  destruct (search_group twitter_title_prefix dquote dq html) as [g |] eqn:Htw.
  { simpl. intros H. injection H as <-. exists html. split; [reflexivity |].
    right. left. apply (search_group_sound _ _ _ _ _ Htw). }
  destruct (search_group "<title>" "<" "</title>" html) as [g |] eqn:Hti;
    [| discriminate].
  simpl. intros H. injection H as <-. exists html. split; [reflexivity |].
  right. right.
  destruct (search_group_sound _ _ _ _ _ Hti) as [H1 [H2 [a [b Hab]]]].
  exists g, a, b. repeat split; assumption.
Qed.

Lemma scraped_title_comes_from_page_witness :
  fst (extract_spotify_track_name throttled_world track_url) = Some "Shape of You"%string
  /\ exists html, w_urlopen throttled_world track_url = Some html.
Proof.
  split; [reflexivity |].
  destruct (scraped_title_comes_from_page throttled_world track_url "Shape of You" eq_refl)
    as [html [Hpage _]].
  exists html. exact Hpage.
Defined.

(** X13.  No title comes out when the fetch of the page raises, or when
    the page holds none of the three opening markers: the function then
    returns [None] after its one fetch, with the error logged in the first
    case and silently in the second, and the fallback has no query. *)
Theorem no_title_without_markers (w : World) (spotify_url : string) :
  w_urlopen w spotify_url = None
  \/ (exists html,
         w_urlopen w spotify_url = Some html
         /\ ~ mentions og_title_prefix html
         /\ ~ mentions twitter_title_prefix html
         /\ ~ mentions "<title>" html) ->
  fst (extract_spotify_track_name w spotify_url) = None
  /\ fallback_query w spotify_url = None
  /\ snd (extract_spotify_track_name w spotify_url)
     = [EvLog INFO MFetching; EvUrlopen spotify_url 10]
         ++ match w_urlopen w spotify_url with
            | None => [EvLog ERROR MFetchFailed; EvLog ERROR MExceptionInfo; EvTraceback]
            | Some _ => []
            end.
Proof.
  unfold fallback_query, extract_spotify_track_name.
  intros [Hnone | [html [Hpage [Hog [Htw Hti]]]]].
  - rewrite Hnone. repeat split.
  - rewrite Hpage. unfold scrape_title.
    destruct (search_group og_title_prefix dquote dq html) as [g |] eqn:H1;
      [exfalso; apply Hog; exact (search_group_mentions _ _ _ _ _ H1) |].
    destruct (search_group twitter_title_prefix dquote dq html) as [g |] eqn:H2;
      [exfalso; apply Htw; exact (search_group_mentions _ _ _ _ _ H2) |].
    destruct (search_group "<title>" "<" "</title>" html) as [g |] eqn:H3;
      [exfalso; apply Hti; exact (search_group_mentions _ _ _ _ _ H3) |].
    repeat split.
Qed.

Lemma no_title_without_markers_witness :
  w_urlopen overdue_world track_url = None
  /\ fst (extract_spotify_track_name overdue_world track_url) = None.
Proof.
  split; [reflexivity |].
  exact (proj1 (no_title_without_markers overdue_world track_url (or_introl eq_refl))).
Defined.

(** ** The loop of main *)

Lemma quit_says_goodbye (w : World) (typed : string) :
  fst (main_turn w typed) = Quit -> snd (main_turn w typed) = [EvPrint MGoodbye].
Proof.
  unfold main_turn.
  destruct (existsb (String.eqb (lower (strip typed))) ["quit"; "exit"; "q"]%string);
    [reflexivity |].
  destruct (negb (truthy (strip typed))); [discriminate |].
  destruct (contains "spotify.com" (strip typed)); discriminate.
Qed.

(** Turns that come back are followed by the rest of the loop. *)
Lemma main_loop_comes_back (pre rest : list (string * World)) :
  Forall comes_back pre ->
  main_loop (pre ++ rest)
  = (fst (main_loop rest), flat_map turn_events pre ++ snd (main_loop rest)).
Proof.
  induction 1 as [| t pre Ht Hpre IH].
  - simpl. destruct (main_loop rest); reflexivity.
  - change ((t :: pre) ++ rest) with (t :: (pre ++ rest)).
    cbn [main_loop flat_map]. rewrite IH, <- app_assoc.
    destruct Ht as [-> | [v ->]]; reflexivity.
Qed.

(** X14.  The loop of main serves the lines in order and goes on after
    every request that comes back, whatever it returned.  It ends at the
    first line that asks to leave, with a goodbye, and nothing typed after
    that line matters; it is stuck in the first request that never
    returns; and when the lines run out before a command to leave, it
    ends with the exception of [input] at the end of the input. *)
Theorem session_runs_until_quit (pre : list (string * World)) :
  Forall comes_back pre ->
  (forall line w post,
      fst (main_turn w line) = Quit ->
      main_loop (pre ++ (line, w) :: post)
      = (Left, flat_map turn_events pre ++ [Prompted; Did (EvPrint MGoodbye)]))
  /\ (forall line w post,
         fst (main_turn w line) = Handled NeverReturns ->
         main_loop (pre ++ (line, w) :: post)
         = (Stuck, flat_map turn_events pre ++ turn_events (line, w)))
  /\ main_loop pre = (Crashed, flat_map turn_events pre ++ [Prompted]).
Proof.
  intros Hpre. split; [| split].
  - intros line w post Hquit. rewrite (main_loop_comes_back pre _ Hpre).
    cbn [main_loop fst snd]. rewrite Hquit. cbn [fst snd]. unfold turn_events.
    cbn [fst snd]. rewrite (quit_says_goodbye w line Hquit). reflexivity.
  - intros line w post Hstuck. rewrite (main_loop_comes_back pre _ Hpre).
    cbn [main_loop fst snd]. rewrite Hstuck. reflexivity.
  - rewrite <- (app_nil_r pre) at 1. rewrite (main_loop_comes_back pre [] Hpre).
    reflexivity.
Qed.

Lemma session_runs_until_quit_witness :
  fst (main_loop a_session) = Left
  /\ prompts (snd (main_loop a_session)) = 5%nat
  /\ main_runs (snd (main_loop a_session))
     = main_runs (flat_map turn_events (firstn 4 a_session)).
Proof.
  assert (Hpre : Forall comes_back (firstn 4 a_session)).
  { repeat apply Forall_cons; try apply Forall_nil.
    - right. eexists. reflexivity.
    - left. reflexivity.
    - right. eexists. reflexivity.
    - right. eexists. reflexivity. }
  pose proof (proj1 (session_runs_until_quit (firstn 4 a_session) Hpre)
                    " QUIT "%string searching_world
                    [("never typed"%string, searching_world)] eq_refl) as H.
  change (firstn 4 a_session ++ (" QUIT "%string, searching_world)
            :: [("never typed"%string, searching_world)])
    with a_session in H.
  rewrite H. split; [reflexivity |]. split; [reflexivity |].
  cbn [snd]. unfold main_runs. rewrite flat_map_app. simpl flat_map at 2. apply app_nil_r.
Defined.

(** ** The start of main *)

Lemma main_runs_app (a b : list MainEvent) :
  main_runs (a ++ b) = main_runs a ++ main_runs b.
Proof. apply flat_map_app. Qed.

Lemma prompts_app (a b : list MainEvent) : (prompts (a ++ b) = prompts a + prompts b)%nat.
Proof. unfold prompts. rewrite filter_app, length_app. reflexivity. Qed.

Section Start.

Variable w : World.
Variable raised : list string -> Raised.
Variable typed : list (string * World).

Let version_cmd := get_yt_dlp_cmd w ++ ["--version"%string].
Let pip_cmd := pip_install_cmd w.

(** X15.  main installs yt-dlp only when the check of its version fails,
    and never checks again.  When the version command exits with code 0,
    main runs no install and goes to its loop.  The check fails when the
    version command exits with another code or cannot be found; main then
    runs pip: when pip exits with code 0 the loop starts, and when pip
    exits with another code or raises, main ends with that exception
    before it asks for a line.  An error of the version command other
    than a missing file ends main at once. *)
Theorem yt_dlp_installed_only_when_missing :
  ((exists out err files, w_run w version_cmd = RunDone 0 out err files) ->
   fst (main w raised typed) = fst (main_loop typed)
   /\ main_runs (snd (main w raised typed))
      = version_cmd :: main_runs (snd (main_loop typed)))
  /\ (fst (check_yt_dlp w raised) = Ret false
      <-> (exists rc out err files,
              rc <> 0 /\ w_run w version_cmd = RunDone rc out err files)
          \/ (w_run w version_cmd = RunRaises /\ raised version_cmd = FileNotFoundError))
  /\ (fst (check_yt_dlp w raised) = Ret false ->
      (exists out err files, w_run w pip_cmd = RunDone 0 out err files) ->
      fst (main w raised typed) = fst (main_loop typed)
      /\ main_runs (snd (main w raised typed))
         = version_cmd :: pip_cmd :: main_runs (snd (main_loop typed)))
  /\ (fst (check_yt_dlp w raised) = Ret false ->
      w_run w pip_cmd = RunRaises
      \/ (exists rc out err files, rc <> 0 /\ w_run w pip_cmd = RunDone rc out err files) ->
      fst (main w raised typed) = Crashed
      /\ main_runs (snd (main w raised typed)) = [version_cmd; pip_cmd]
      /\ prompts (snd (main w raised typed)) = 0%nat)
  /\ (w_run w version_cmd = RunRaises ->
      raised version_cmd = OtherException ->
      fst (main w raised typed) = Crashed
      /\ main_runs (snd (main w raised typed)) = [version_cmd]
      /\ prompts (snd (main w raised typed)) = 0%nat).
Proof.
  unfold main, check_yt_dlp, install_yt_dlp. fold version_cmd. fold pip_cmd.
  split; [| split; [| split; [| split]]].
  - intros [out [err [files ->]]]. cbn [Z.eqb fst snd map].
    destruct (main_loop typed) as [e more]. cbn [fst snd]. split; [reflexivity |].
    simpl. reflexivity.
  - destruct (w_run w version_cmd) as [rc out err files | |].
    + destruct (Z.eqb_spec rc 0) as [-> | Hrc]; cbn [fst]; split.
      * discriminate.
      * intros [[rc [o [e [f [Hrc H]]]]] | [H _]]; [congruence | discriminate].
      * intros _. left. eauto 10.
      * reflexivity.
    + destruct (raised version_cmd); cbn [fst]; split;
        try discriminate; try reflexivity.
      * intros _. right. split; reflexivity.
      * intros [[rc [o [e [f [Hrc H]]]]] | [_ H]]; discriminate.
    + cbn [fst]. split; [discriminate |].
      intros [[rc [o [e [f [Hrc H]]]]] | [H _]]; discriminate.
  - intros Hcheck [out [err [files Hpip]]]. rewrite Hpip. cbn [Z.eqb].
    destruct (w_run w version_cmd) as [rc o e f | |];
      [destruct (rc =? 0) | destruct (raised version_cmd) |];
      cbn [fst] in Hcheck; try discriminate;
      destruct (main_loop typed) as [en more]; cbn [fst snd map];
      (split; [reflexivity | simpl; reflexivity]).
  - intros Hcheck Hpip.
    assert (Hinstall :
              exists files,
                (match w_run w pip_cmd with
                 | RunDone returncode _ _ files =>
                     if returncode =? 0
                     then (Ret tt, [Told NInstalling; Did (EvRun pip_cmd files)])
                     else (Raise, [Told NInstalling; Did (EvRun pip_cmd files)])
                 | RunRaises => (Raise, [Told NInstalling; Did (EvRun pip_cmd [])])
                 | RunHangs => (Hang, [Told NInstalling; Did (EvRun pip_cmd [])])
                 end)
                = (Raise, [Told NInstalling; Did (EvRun pip_cmd files)])).
    { destruct Hpip as [-> | [rc [o [e [f [Hrc ->]]]]]]; [eexists; reflexivity |].
      apply Z.eqb_neq in Hrc. rewrite Hrc. eexists; reflexivity. }
    destruct Hinstall as [files ->].
    destruct (w_run w version_cmd) as [rc o e f | |];
      [destruct (rc =? 0) | destruct (raised version_cmd) |];
      cbn [fst] in Hcheck; try discriminate; repeat split.
  - intros -> ->. repeat split.
Qed.

End Start.

Lemma yt_dlp_installed_only_when_missing_witness :
  fst (main searching_world (fun _ => FileNotFoundError) a_session) = Left
  /\ fst (main lost_download_world (fun _ => FileNotFoundError) a_session) = Crashed
  /\ prompts (snd (main lost_download_world (fun _ => FileNotFoundError) a_session))
     = 0%nat.
Proof.
  destruct (yt_dlp_installed_only_when_missing
              searching_world (fun _ => FileNotFoundError) a_session)
    as [Hok _].
  destruct (yt_dlp_installed_only_when_missing
              lost_download_world (fun _ => FileNotFoundError) a_session)
    as [_ [_ [_ [Hfail _]]]].
  split.
  - rewrite (proj1 (Hok ltac:(eexists _, _, _; reflexivity))). reflexivity.
  - assert (Hpip :
              w_run lost_download_world (pip_install_cmd lost_download_world) = RunRaises
              \/ exists rc out err files,
                  rc <> 0
                  /\ w_run lost_download_world (pip_install_cmd lost_download_world)
                     = RunDone rc out err files).
    { right. exists 1, EmptyString, "ERROR"%string, []. split; [discriminate | reflexivity]. }
    destruct (Hfail eq_refl Hpip) as [Hend [_ Hprompts]].
    split; [exact Hend | exact Hprompts].
Defined.

(** ** Lines of white space *)

Lemma lstrip_white (s : string) :
  Forall (fun c => is_space c = true) (chars s) -> lstrip s = EmptyString.
Proof.
  unfold chars. induction s as [| c s IH]; intros H; [reflexivity |].
  inversion H as [| c' l Hc Hs]; subst. simpl. rewrite Hc. apply IH, Hs.
Qed.

(** X16.  A line of white space only is no request: the turn does nothing,
    and the loop asks for the next line. *)
Theorem blank_line_is_skipped (w : World) (typed : string)
        (rest : list (string * World)) :
  Forall (fun c => is_space c = true) (chars typed) ->
  main_turn w typed = (Again, [])
  /\ main_loop ((typed, w) :: rest)
     = (fst (main_loop rest), Prompted :: snd (main_loop rest)).
Proof.
  intros Hwhite.
  assert (Hturn : main_turn w typed = (Again, [])).
  { unfold main_turn, strip. rewrite (lstrip_white typed Hwhite). reflexivity. }
  split; [exact Hturn |].
  cbn [main_loop fst snd]. unfold turn_events. cbn [fst snd]. rewrite Hturn.
  cbn [fst snd map]. destruct (main_loop rest); reflexivity.
Qed.

Lemma blank_line_is_skipped_witness :
  main_turn searching_world "   " = (Again, []).
Proof.
  apply (proj1 (blank_line_is_skipped searching_world "   " []
                  ltac:(repeat constructor))).
Defined.

(** ** One backend process *)

Lemma supervise_quiet (w : World) (timeout : Z) (ticks : list Tick) :
  runs (lp_evs (supervise w timeout ticks)) = []
  /\ fetches (lp_evs (supervise w timeout ticks)) = []
  /\ spawns (lp_evs (supervise w timeout ticks)) = [].
Proof.
  induction ticks as [| t ticks IH]; [repeat split |].
  cbn [supervise].
  destruct (now t - w_start w >? timeout); [repeat split |].
  destruct (rd t) as [raw | |]; try (repeat split; fail).
  destruct (truthy raw).
  - destruct (is_rate_limit (strip raw)); [repeat split | exact IH].
  - destruct (pl t); [repeat split | exact IH].
Qed.

Lemma conclude_spawns (w : World) (spotify_url output_dir : string)
      (rate_limited : bool) (lines : list string) (returncode : Z) :
  spawns (effects (conclude w spotify_url output_dir rate_limited lines returncode)) = [].
Proof.
  destruct rate_limited.
  - rewrite conclude_rate_limited. cbn [effects].
    destruct (extract_effects w spotify_url) as [e [-> [_ [_ He]]]].
    change (spawns ((EvLog INFO MFetching :: EvUrlopen spotify_url 10 :: e) ++ ?l))
      with (spawns (e ++ l)).
    change (spawns (EvLog INFO MFallingBack :: ?l)) with (spawns l).
    change (spawns ((EvLog INFO MFetching :: EvUrlopen spotify_url 10 :: e) ++ ?l))
      with (spawns (e ++ l)).
    rewrite spawns_app, He.
    destruct (fallback_query w spotify_url); [apply pipeline_spawns | reflexivity].
  - unfold conclude. destruct (returncode =? 0); reflexivity.
Qed.

Lemma conclude_not_rate_limited_quiet
      (w : World) (spotify_url output_dir : string) (lines : list string) (returncode : Z) :
  runs (effects (conclude w spotify_url output_dir false lines returncode)) = []
  /\ fetches (effects (conclude w spotify_url output_dir false lines returncode)) = [].
Proof. unfold conclude. destruct (returncode =? 0); split; reflexivity. Qed.

(** X17.  The primary backend is started at most once for a request,
    whatever happens afterwards: once, with the command line of spotdl for
    the URL and the directory, when the spawn succeeds, and not at all
    otherwise.  Unless the run was throttled, the request runs no other
    command and fetches nothing. *)
Theorem primary_backend_started_at_most_once
        (w : World) (spotify_url output_dir : string) (timeout : Z) :
  let r := download_from_spotify_url w spotify_url output_dir timeout in
  spawns (s_effects r)
  = (if w_spawn_ok w
     then [[w_executable w; "-m"; "spotdl"; spotify_url; "--output"; output_dir;
            "--format"; "mp3"; "--bitrate"; "320k"]%string]
     else [])
  /\ (w_spawn_ok w = false
      \/ lp_exit (supervise w timeout (w_ticks w)) <> XRateLimited ->
      runs (s_effects r) = [] /\ fetches (s_effects r) = []).
Proof.
  cbv zeta. unfold download_from_spotify_url.
  destruct (supervise_quiet w timeout (w_ticks w)) as [Hr [Hf Hs]].
  destruct (w_spawn_ok w); cbn [negb].
  - split.
    + destruct (lp_exit (supervise w timeout (w_ticks w))); cbn [s_effects];
        rewrite ?spawns_app;
        repeat match goal with
               | |- context [spawns (?e :: ?l)] =>
                   lazymatch l with
                   | [] => fail
                   | _ => change (e :: l) with ([e] ++ l); rewrite spawns_app
                   end
               end;
        rewrite ?conclude_spawns, ?Hs; reflexivity.
    + intros [Hno | Hno]; [discriminate |].
      destruct (lp_exit (supervise w timeout (w_ticks w))) as [t | code | | | |];
        cbn [s_effects]; try congruence; split.
      all: rewrite ?runs_app, ?fetches_app.
      all: repeat match goal with
                  | |- context [runs (?x :: ?l)] =>
                      lazymatch l with
                      | [] => fail
                      | _ => change (x :: l) with ([x] ++ l); rewrite runs_app
                      end
                  | |- context [fetches (?x :: ?l)] =>
                      lazymatch l with
                      | [] => fail
                      | _ => change (x :: l) with ([x] ++ l); rewrite fetches_app
                      end
                  end.
      all: rewrite ?Hr, ?Hf.
      all: try match goal with
               | |- context [effects (conclude ?a ?u ?d false ?l ?c)] =>
                   rewrite ?(proj1 (conclude_not_rate_limited_quiet a u d l c)),
                           ?(proj2 (conclude_not_rate_limited_quiet a u d l c))
               end.
      all: reflexivity.
  - split; [reflexivity |]. intros _. split; reflexivity.
Qed.

Lemma primary_backend_started_at_most_once_witness :
  lp_exit (supervise succeeding_world 120 (w_ticks succeeding_world)) <> XRateLimited
  /\ runs (s_effects (download_from_spotify_url succeeding_world track_url "downloads" 120))
     = []
  /\ fetches (s_effects (download_from_spotify_url succeeding_world track_url
                                                   "downloads" 120))
     = [].
Proof.
  assert (H : lp_exit (supervise succeeding_world 120 (w_ticks succeeding_world))
              <> XRateLimited) by discriminate.
  split; [exact H |].
  exact (proj2 (primary_backend_started_at_most_once
                  succeeding_world track_url "downloads" 120)
               (or_intror H)).
Defined.

(** ** The template of the output *)

Lemma string_app_assoc (a b c : string) :
  (a ++ (b ++ c) = (a ++ b) ++ c)%string.
Proof. induction a as [| x a IH]; simpl; [reflexivity | f_equal; exact IH]. Qed.

(** An occurrence of ".mp3" cannot start in a text without one and end in
    the ".mp3" put after it. *)
Lemma mp3_does_not_straddle (c : ascii) (q : string) :
  String.prefix ".mp3" (String c q) = false ->
  String.prefix ".mp3" (String c q ++ ".mp3") = false.
Proof.
  intros Hno.
  destruct (String.prefix ".mp3" (String c q ++ ".mp3")) eqn:H; [| reflexivity].
  apply prefix_iff in H. destruct H as [b Hb].
  assert (Hyes : String.prefix ".mp3" (String c q) = true); [| congruence].
  apply prefix_iff. simpl in Hb. injection Hb as -> Hb.
  destruct q as [| c2 q]; simpl in Hb; [discriminate |].
  injection Hb as -> Hb.
  destruct q as [| c3 q]; simpl in Hb; [discriminate |].
  injection Hb as -> Hb.
  destruct q as [| c4 q]; simpl in Hb; [discriminate |].
  injection Hb as -> Hb.
  exists q. reflexivity.
Qed.

Lemma replace_mp3_suffix (new p : string) :
  contains ".mp3" p = false ->
  replace ".mp3" new (p ++ ".mp3") = (p ++ new)%string.
Proof.
  unfold replace. induction p as [| c p IH]; intros Hno.
  - simpl. induction new as [| d new IHn]; [reflexivity |]. simpl. f_equal. exact IHn.
  - cbn [contains] in Hno. apply orb_false_iff in Hno. destruct Hno as [Hhere Hrest].
    change ((String c p ++ ".mp3")%string) with (String c (p ++ ".mp3")).
    cbn [replace_from].
    change (String c (p ++ ".mp3")) with ((String c p ++ ".mp3")%string).
    rewrite (mp3_does_not_straddle c p Hhere).
    simpl. f_equal. apply IH, Hrest.
Qed.

(** X18.  When neither the output directory nor the sanitized name holds
    ".mp3", the template handed to the download command is the
    destination with the extension left open: the command line ends with
    the output option, the path [output_dir/<name>.%(ext)s] and the
    no-playlist option, so that the file the backend writes for the
    extension mp3 is the [file_path] that the pipeline returns. *)
Theorem output_template_leaves_extension_open
        (w : World) (m : Metadata) (url output_dir : string) :
  let sep := if negb (truthy output_dir) || ends_with "/" output_dir
             then EmptyString else "/"%string in
  contains ".mp3" (output_dir ++ sep ++ safe_filename m) = false ->
  download_cmd w url (output_path_of m output_dir)
  = [w_executable w; "-m"; "yt_dlp"; url; "--extract-audio";
     "--audio-format"; "mp3"; "--audio-quality"; "0";
     "--embed-thumbnail"; "--embed-metadata";
     "--output"; (output_dir ++ sep ++ safe_filename m ++ ".%(ext)s")%string;
     "--no-playlist"]%string
  /\ output_path_of m output_dir
     = (output_dir ++ sep ++ safe_filename m ++ ".mp3")%string.
Proof.
  intros sep Hno.
  assert (Hpath : output_path_of m output_dir
                  = ((output_dir ++ sep ++ safe_filename m) ++ ".mp3")%string).
  { unfold output_path_of, path_join, safe_filename, sep.
    rewrite sanitize_not_absolute by reflexivity.
    destruct (negb (truthy output_dir) || ends_with "/" output_dir).
    - simpl. rewrite <- !string_app_assoc. reflexivity.
    - rewrite <- !string_app_assoc. reflexivity. }
  assert (Htemplate : replace ".mp3" ".%(ext)s" (output_path_of m output_dir)
                      = (output_dir ++ sep ++ safe_filename m ++ ".%(ext)s")%string).
  { rewrite Hpath, (replace_mp3_suffix _ _ Hno), <- !string_app_assoc. reflexivity. }
  split; [| rewrite Hpath, <- !string_app_assoc; reflexivity].
  unfold download_cmd, get_yt_dlp_cmd. rewrite Htemplate. reflexivity.
Qed.

Lemma output_template_leaves_extension_open_witness :
  contains ".mp3" ("downloads" ++ "/" ++ safe_filename (build_metadata believer)) = false
  /\ download_cmd searching_world "u" (output_path_of (build_metadata believer) "downloads")
     = ["python"; "-m"; "yt_dlp"; "u"; "--extract-audio";
        "--audio-format"; "mp3"; "--audio-quality"; "0";
        "--embed-thumbnail"; "--embed-metadata";
        "--output"; "downloads/Imagine Dragons - Believer.%(ext)s";
        "--no-playlist"]%string.
Proof.
  split; [reflexivity |].
  exact (proj1 (output_template_leaves_extension_open
                  searching_world (build_metadata believer) "u" "downloads" eq_refl)).
Defined.
